(** * ResNet50 image classifier and its Tk front end

    A shallow embedding of [src/model.py] (class [ResNet50Classifier]) and of
    the event handling of [src/gui.py] (class [ImageClassifierGUI]).

    Python exceptions are values of [pyexn]; a call that may raise returns a
    [result].  The libraries the program drives (PIL, torchvision, torch) are
    interfaces: a type class per library, holding the operations the program
    calls and the part of their documented behaviour the program relies on. *)

From Stdlib Require Import ZArith QArith Qround Qabs List Lia Lqa String Ascii.
From stdpp Require Import base option list strings gmap pretty sorting.

Set Default Proof Using "Type".
Set Warnings "-register-all".
Local Open Scope string_scope.
Local Open Scope nat_scope.

(** ** Exceptions *)

(** The exception classes that occur.  [KeyboardInterrupt] stands for the
    classes that derive from [BaseException] only: [except Exception] lets
    them through. *)
Inductive exn_class : Set :=
  | FileNotFoundError
  | UnidentifiedImageError
  | OSError
  | ZeroDivisionError
  | TypeError
  | AttributeError
  | IndexError
  | RuntimeError
  | ValueError
  | NameError
  | KeyboardInterrupt.

Definition is_Exception (c : exn_class) : bool :=
  match c with
  | KeyboardInterrupt => false
  | _ => true
  end.

(** An exception object: its class, [str(e)], and [e.__context__]. *)
Inductive pyexn : Type :=
  | PyExn (cls : exn_class) (msg : string) (context : option pyexn).

Definition exn_cls (e : pyexn) : exn_class := let 'PyExn c _ _ := e in c.
Definition exn_str (e : pyexn) : string := let 'PyExn _ m _ := e in m.
Definition exn_context (e : pyexn) : option pyexn := let 'PyExn _ _ c := e in c.

Inductive result (A : Type) : Type :=
  | Ok (a : A)
  | Raise (e : pyexn).
Arguments Ok {A} a.
Arguments Raise {A} e.

#[global] Instance result_ret : MRet result := fun A a => Ok a.
#[global] Instance result_bind : MBind result := fun A B f r =>
  match r with
  | Ok a => f a
  | Raise e => Raise e
  end.

(** [raise C(msg)] outside any handler. *)
Definition raise {A} (c : exn_class) (msg : string) : result A :=
  Raise (PyExn c msg None).

(** [raise C(msg)] while the exception [e] is being handled: Python stores
    [e] in the new exception's [__context__]. *)
Definition raise_handling {A} (e : pyexn) (c : exn_class) (msg : string) : result A :=
  Raise (PyExn c msg (Some e)).

(** [try: body  except Exception as e: handler e]. *)
Definition try_except {A} (body : result A) (handler : pyexn -> result A) : result A :=
  match body with
  | Ok a => Ok a
  | Raise e => if is_Exception (exn_cls e) then handler e else Raise e
  end.

(** Calling an attribute that may still be [None]. *)
Definition not_None {A} (what : string) (o : option A) : result A :=
  match o with
  | Some a => Ok a
  | None => raise TypeError ("'NoneType' object is not " +:+ what)
  end.

(** ** Images and tensors *)

(** A decoded RGB picture: its size and the band values (0..255) at [x y band]. *)
Record Image := {
  im_width : nat;
  im_height : nat;
  im_pixel : nat -> nat -> nat -> Z
}.

(** A tensor: its shape and the entry at a multi-index.  A float32 entry is
    written as the rational it equals; what float32 arithmetic returns is
    the library's business ([float32_sub], [float32_div] below). *)
Record Tensor := {
  shape : list nat;
  item_at : list nat -> Q
}.

(** The image library (PIL decoding, torchvision's resampling filter and the
    float32 arithmetic of its tensor transforms). *)
Class Imaging := {
  (** [Image.open(fp).convert('RGB')] on the bytes of a file *)
  decode_rgb : list Byte.byte -> result Image;
  (** the band values of [img] resampled to a new width and height *)
  interpolate : Image -> nat -> nat -> nat -> nat -> nat -> Z;
  (** [torch.as_tensor(x, dtype=torch.float32)] of a Python float written as
      the decimal [x] *)
  float32_of_decimal : Q -> Q;
  (** [a - b] and [a / b] on float32 tensors, per entry *)
  float32_sub : Q -> Q -> Q;
  float32_div : Q -> Q -> Q;
  (** a constant of at least 0.001 is not 0 as a float32 *)
  float32_of_decimal_nonzero :
    forall x, (1 # 1000 <= x)%Q -> Qeq_bool 0 (float32_of_decimal x) = false;
  (** an empty file is never identified as an image *)
  decode_rgb_empty : exists e, decode_rgb [] = Raise e;
  (** decoding fails with ordinary exceptions only *)
  decode_rgb_Exception :
    forall data e, decode_rgb data = Raise e -> is_Exception (exn_cls e) = true
}.

Section Transforms.
Context `{Imaging}.

(** [Image.open(image_path).convert('RGB')] *)
Definition Image_open (fs : gmap string (list Byte.byte)) (image_path : string)
  : result Image :=
  match fs !! image_path with
  | None =>
      raise FileNotFoundError
        ("[Errno 2] No such file or directory: '" +:+ image_path +:+ "'")
  | Some data => decode_rgb data
  end.

(** [transforms.Resize(size)] with an int: the shorter side becomes [size],
    the longer one [int(size * long / short)] (the float quotient truncated,
    here the integer quotient). *)
Definition Resize (size : nat) (img : Image) : result Image :=
  let w := im_width img in
  let h := im_height img in
  let short := if w <=? h then w else h in
  let long := if w <=? h then h else w in
  if short =? 0 then raise ZeroDivisionError "division by zero"
  else
    let new_long := (size * long / short)%nat in
    let new_w := if w <=? h then size else new_long in
    let new_h := if w <=? h then new_long else size in
    Ok {| im_width := new_w; im_height := new_h;
          im_pixel := interpolate img new_w new_h |}.

(** Python's [int(round(d / 2.0))]: halves round to the even neighbour. *)
Definition round_half (d : nat) : nat :=
  let q := (d / 2)%nat in
  if Nat.even d then q else if Nat.even q then q else S q.

(** [transforms.CenterCrop(size)]: pads with 0 when the picture is smaller
    than the crop, then cuts the centred square. *)
Definition CenterCrop (size : nat) (img : Image) : Image :=
  let w := im_width img in
  let h := im_height img in
  let pad_left := if w <? size then ((size - w) / 2)%nat else 0%nat in
  let pad_top := if h <? size then ((size - h) / 2)%nat else 0%nat in
  let pw := Nat.max w size in
  let ph := Nat.max h size in
  let padded x y b :=
    if (pad_left <=? x) && (x <? pad_left + w) && (pad_top <=? y) && (y <? pad_top + h)
    then im_pixel img (x - pad_left) (y - pad_top) b
    else 0%Z in
  let crop_top := round_half (ph - size) in
  let crop_left := round_half (pw - size) in
  {| im_width := size; im_height := size;
     im_pixel := fun x y b => padded (crop_left + x)%nat (crop_top + y)%nat b |}.

(** [transforms.ToTensor()]: channels first, each byte converted to float32
    (exactly) and divided by 255. *)
Definition ToTensor (img : Image) : Tensor :=
  {| shape := [3%nat; im_height img; im_width img];
     item_at := fun ix =>
       match ix with
       | [c; y; x] => float32_div (inject_Z (im_pixel img x y c)) 255%Q
       | _ => 0%Q
       end |}.

(** [transforms.Normalize(mean, std)]: [mean] and [std] become float32
    tensors, then per channel [tensor.sub_(mean).div_(std)]. *)
Definition Normalize (mean std : list Q) (t : Tensor) : result Tensor :=
  if (length (shape t) <? 3)%nat then
    raise ValueError "Expected tensor to be a tensor image of size (..., C, H, W)"
  else if existsb (fun x => Qeq_bool 0 (float32_of_decimal x)) std then
    raise ValueError "std evaluated to zero, leading to division by zero"
  else if negb ((length mean =? hd 0%nat (shape t)) && (length std =? hd 0%nat (shape t)))%nat then
    raise RuntimeError "The size of tensor a must match the size of tensor b"
  else
    Ok {| shape := shape t;
          item_at := fun ix =>
            match ix with
            | c :: _ =>
                float32_div
                  (float32_sub (item_at t ix) (float32_of_decimal (nth c mean 0%Q)))
                  (float32_of_decimal (nth c std 1%Q))
            | [] => item_at t ix
            end |}.

(** [tensor.unsqueeze(0)] *)
Definition unsqueeze0 (t : Tensor) : Tensor :=
  {| shape := 1%nat :: shape t;
     item_at := fun ix =>
       match ix with
       | 0%nat :: rest => item_at t rest
       | _ => 0%Q
       end |}.

Definition imagenet_mean : list Q := [485 # 1000; 456 # 1000; 406 # 1000]%Q.
Definition imagenet_std : list Q := [229 # 1000; 224 # 1000; 225 # 1000]%Q.

(** The pipeline built by [_setup_transforms]:
    [Compose([Resize(256), CenterCrop(224), ToTensor(), Normalize(mean, std)])]. *)
Definition imagenet_transform (img : Image) : result Tensor :=
  resized ← Resize 256 img;
  Normalize imagenet_mean imagenet_std (ToTensor (CenterCrop 224 resized)).

End Transforms.

(** ** The tensor library *)

(** What [torch.topk(input, k)] promises of a row [xs] (with the defaults
    [largest=True, sorted=True]): [k] distinct positions and the values found
    there, in non-increasing order, none of them smaller than a value that was
    left out.  The order among equal values is not part of the contract. *)
Record is_topk (xs : list Q) (k : nat) (vals : list Q) (idxs : list nat) : Prop := {
  topk_length_vals : length vals = k;
  topk_length_idxs : length idxs = k;
  topk_NoDup : NoDup idxs;
  topk_gather : forall i idx, idxs !! i = Some idx -> vals !! i = xs !! idx;
  topk_sorted : forall i j a b,
    i < j -> vals !! i = Some a -> vals !! j = Some b -> (b <= a)%Q;
  topk_largest : forall j x v,
    xs !! j = Some x -> j ∉ idxs -> v ∈ vals -> (x <= v)%Q
}.

(** An [nn.Module]: its parameters and its [training] flag. *)
Record Module (W : Type) := {
  parameters : W;
  training : bool
}.
Arguments parameters {W} m.
Arguments training {W} m.

(** [module.eval()] *)
Definition eval {W} (m : Module W) : Module W :=
  {| parameters := parameters m; training := false |}.

(** torch and torchvision.models, for one batch row of class scores. *)
Class Torch := {
  Weights : Type;
  (** [models.resnet50(weights=ResNet50_Weights.IMAGENET1K_V1)]: what loading
      the weights gives in this environment *)
  resnet50 : result Weights;
  (** [module(x)[0]] *)
  forward : Module Weights -> Tensor -> result (list Q);
  (** [F.softmax(outputs, dim=1)[0]] *)
  softmax : list Q -> list Q;
  (** [torch.topk(probabilities, k)], as [(values[0], indices[0])] *)
  topk : list Q -> Z -> result (list Q * list nat);
  resnet50_Exception :
    forall e, resnet50 = Raise e -> is_Exception (exn_cls e) = true;
  (** a 1x3x224x224 batch always gets a row of 1000 class scores *)
  forward_scores : forall net t,
    shape t = [1; 3; 224; 224] ->
    exists scores, forward net t = Ok scores /\ length scores = 1000;
  forward_Exception :
    forall net t e, forward net t = Raise e -> is_Exception (exn_cls e) = true;
  softmax_length : forall xs, length (softmax xs) = length xs;
  topk_in_range : forall xs k,
    (0 <= k <= Z.of_nat (length xs))%Z ->
    exists vals idxs, topk xs k = Ok (vals, idxs) /\ is_topk xs (Z.to_nat k) vals idxs;
  (** "selected index k out of range" *)
  topk_out_of_range : forall xs k,
    ~ (0 <= k <= Z.of_nat (length xs))%Z ->
    exists e, topk xs k = Raise e /\ exn_cls e = RuntimeError
}.

(** ** src/model.py *)

(** [l[i]] for [0 <= i] *)
Definition getitem {A} (l : list A) (i : nat) : result A :=
  match l !! i with
  | Some a => Ok a
  | None => raise IndexError "index out of range"
  end.

(** [for x in xs: body], threading the variables the body assigns. *)
Fixpoint for_in {A S} (xs : list A) (body : S -> A -> result S) (s : S) : result S :=
  match xs with
  | [] => Ok s
  | x :: rest => s' ← body s x; for_in rest body s'
  end.

(** [range(n)]: empty for [n <= 0]. *)
Definition range (n : Z) : list nat := seq 0 (Z.to_nat n).

Section Model.
Context `{Imaging} `{Torch}.

Record ResNet50Classifier := {
  model : option (Module Weights);
  transform : option (Image -> result Tensor);
  class_labels : option (list string)
}.

Definition _setup_model (self : ResNet50Classifier) : result ResNet50Classifier :=
  try_except
    (w ← resnet50;
     let loaded := {| parameters := w; training := true |} in
     Ok {| model := Some (eval loaded);
           transform := transform self;
           class_labels := class_labels self |})
    (fun e => Raise e).

Definition _setup_transforms (self : ResNet50Classifier) : ResNet50Classifier :=
  {| model := model self;
     transform := Some imagenet_transform;
     class_labels := class_labels self |}.

Definition imagenet_labels : list string :=
  [ "tench"; "goldfish"; "great white shark"; "tiger shark";
    "hammerhead"; "electric ray"; "stingray"; "cock"; "hen";
    "ostrich"; "brambling"; "goldfinch"; "house finch";
    "junco"; "indigo bunting"; "robin"; "bulbul"; "jay";
    "magpie"; "chickadee"; "water ouzel"; "kite"; "bald eagle";
    "vulture"; "great grey owl"; "European fire salamander";
    "common newt"; "eft"; "spotted salamander"; "axolotl" ].

Definition _load_imagenet_labels (self : ResNet50Classifier) : ResNet50Classifier :=
  {| model := model self;
     transform := transform self;
     class_labels := Some imagenet_labels |}.

Definition __init__ : result ResNet50Classifier :=
  let self := {| model := None; transform := None; class_labels := None |} in
  self ← _setup_model self;
  let self := _setup_transforms self in
  let self := _load_imagenet_labels self in
  Ok self.

Definition create_classifier : result ResNet50Classifier := __init__.

Definition is_model_loaded (self : ResNet50Classifier) : bool :=
  match model self with
  | Some _ => true
  | None => false
  end.

Definition preprocess_image (self : ResNet50Classifier)
    (fs : gmap string (list Byte.byte)) (image_path : string) : result Tensor :=
  try_except
    (image ← Image_open fs image_path;
     tf ← not_None "callable" (transform self);
     image_tensor ← tf image;
     Ok (unsqueeze0 image_tensor))
    (fun e => raise_handling e ValueError ("Cannot process image: " +:+ exn_str e)).

(** Lines 120-128 of [predict]: the tensor, the forward pass, the softmax
    and [top_prob, top_class = torch.topk(probabilities, top_k)]. *)
Definition top_predictions (self : ResNet50Classifier)
    (fs : gmap string (list Byte.byte)) (image_path : string) (top_k : Z)
  : result (list Q * list nat) :=
  image_tensor ← preprocess_image self fs image_path;
  net ← not_None "callable" (model self);
  outputs ← forward net image_tensor;
  let probabilities := softmax outputs in
  topk probabilities top_k.

(** Lines 136-140: the name of a class index. *)
Definition class_name_of (self : ResNet50Classifier) (class_idx : nat) : result string :=
  labels ← not_None "sized" (class_labels self);
  if class_idx <? length labels then getitem labels class_idx
  else Ok ("Class_" +:+ pretty class_idx).

(** Lines 133-142: the body of the loop, for one [i]. *)
Definition append_prediction (self : ResNet50Classifier)
    (top_prob : list Q) (top_class : list nat)
    (predictions : list (string * Q)) (i : nat) : result (list (string * Q)) :=
  class_idx ← getitem top_class i;
  confidence ← getitem top_prob i;
  class_name ← class_name_of self class_idx;
  Ok (predictions ++ [(class_name, confidence)])%list.

(** Lines 131-142: [predictions = []] and the loop over [range(top_k)]. *)
Definition readable (self : ResNet50Classifier)
    (top_prob : list Q) (top_class : list nat) (top_k : Z)
  : result (list (string * Q)) :=
  for_in (range top_k) (append_prediction self top_prob top_class) [].

(** Lines 119-144: the body of the [try] block of [predict]. *)
Definition predict_body (self : ResNet50Classifier)
    (fs : gmap string (list Byte.byte)) (image_path : string) (top_k : Z)
  : result (list (string * Q)) :=
  '(top_prob, top_class) ← top_predictions self fs image_path top_k;
  readable self top_prob top_class top_k.

Definition predict (self : ResNet50Classifier)
    (fs : gmap string (list Byte.byte)) (image_path : string) (top_k : Z)
  : result (list (string * Q)) :=
  try_except (predict_body self fs image_path top_k)
    (fun e => raise_handling e ValueError ("Prediction failed: " +:+ exn_str e)).

End Model.


(** ** src/gui.py *)

Inductive button_state : Set := NORMAL | DISABLED.

(** A [messagebox] call. *)
Inductive dialog : Set :=
  | showwarning (title message : string)
  | showerror (title message : string).

(** What [image_label] shows. *)
Inductive label_content : Set :=
  | LabelText (text : string)
  | LabelPhoto.

(** The functions handed to [root.after(0, ...)].  A lambda reads the variable
    it names ([e], [predictions]) in the frame of the worker that made it, at
    the time it is called. *)
Inductive callback : Set :=
  | on_model_loaded
  | lambda_model_error (frame : nat)
  | on_classification_start
  | lambda_classification_complete (frame : nat)
  | lambda_classification_error (frame : nat).

(** Where a worker thread stands: the next statement of [load_in_background]
    or of [classify_in_background] it will run. *)
Inductive pc : Type :=
  | LoadProgressStart
  | LoadCreateClassifier
  | LoadAfterLoaded
  | LoadAfterError
  | LoadLeaveExcept
  | ClassifyAfterStart
  | ClassifyPredict
  | ClassifyAfterComplete
  | ClassifyAfterError
  | ClassifyLeaveExcept
  | Finished
  | Uncaught (e : pyexn).

(** A worker thread and the local variables of its function. *)
Record thread := {
  th_pc : pc;
  var_e : option pyexn;
  var_predictions : option (list (string * Q))
}.

Definition at_pc (p : pc) (t : thread) : thread :=
  {| th_pc := p; var_e := var_e t; var_predictions := var_predictions t |}.

Definition LF : string := String (ascii_of_nat 10) "".

(** [os.path.basename]: what follows the last "/". *)
Fixpoint basename (p : string) : string :=
  match p with
  | EmptyString => EmptyString
  | String c rest =>
      if existsb (Ascii.eqb "/"%char) (list_ascii_of_string rest) then basename rest
      else if Ascii.eqb c "/"%char then rest
      else p
  end.

(** [round(q)], halves to the even neighbour. *)
Definition py_round (q : Q) : Z :=
  let f := Qfloor q in
  let r := (q - inject_Z f)%Q in
  if Qle_bool r (1 # 2) && negb (Qeq_bool r (1 # 2)) then f
  else if Qeq_bool r (1 # 2) then (if Z.even f then f else f + 1)%Z
  else (f + 1)%Z.

(** [f"{x:.2f}"], on the exact rational: a float next to a tie may round to
    the other side. *)
Definition format_2f (x : Q) : string :=
  let n := py_round (x * 100) in
  let a := Z.abs n in
  let frac := (a mod 100)%Z in
  (if (n <? 0)%Z then "-" else "") +:+ pretty (a / 100)%Z +:+ "."
    +:+ (if (frac <? 10)%Z then "0" else "") +:+ pretty frac.

(** The text [display_results] writes. *)
Definition results_of (predictions : list (string * Q)) : string :=
  "Top 5 Predictions:" +:+ LF +:+ LF +:+
  String.concat ""
    (imap (fun i '(class_name, confidence) =>
             pretty (S i) +:+ ". " +:+ class_name +:+ LF +:+
             "   Confidence: " +:+ format_2f (confidence * 100) +:+ "%" +:+ LF +:+ LF)
          predictions).

Section GUI.
Context `{Imaging} `{Torch}.

(** The [ImageClassifierGUI] object with its widgets, and around it the Tk
    event queue, the worker threads, the dialogs shown so far and the
    exceptions Tk reported from callbacks. *)
Record App := {
  classifier : option ResNet50Classifier;
  current_image_path : option string;
  file_label : string;
  predict_button : button_state;
  progress_running : bool;
  status_label : string * string;
  results_text : string;
  image_label : label_content;
  dialogs : list dialog;
  after_queue : list callback;
  threads : list thread;
  callback_errors : list pyexn
}.

Definition set_classifier (c : option ResNet50Classifier) (a : App) : App :=
  {| classifier := c; current_image_path := current_image_path a;
     file_label := file_label a; predict_button := predict_button a;
     progress_running := progress_running a; status_label := status_label a;
     results_text := results_text a; image_label := image_label a;
     dialogs := dialogs a; after_queue := after_queue a; threads := threads a;
     callback_errors := callback_errors a |}.

Definition set_selection (path : string) (a : App) : App :=
  {| classifier := classifier a; current_image_path := Some path;
     file_label := "Selected: " +:+ basename path; predict_button := NORMAL;
     progress_running := progress_running a; status_label := status_label a;
     results_text := results_text a; image_label := image_label a;
     dialogs := dialogs a; after_queue := after_queue a; threads := threads a;
     callback_errors := callback_errors a |}.

Definition set_image_label (l : label_content) (a : App) : App :=
  {| classifier := classifier a; current_image_path := current_image_path a;
     file_label := file_label a; predict_button := predict_button a;
     progress_running := progress_running a; status_label := status_label a;
     results_text := results_text a; image_label := l;
     dialogs := dialogs a; after_queue := after_queue a; threads := threads a;
     callback_errors := callback_errors a |}.

Definition set_results (text : string) (a : App) : App :=
  {| classifier := classifier a; current_image_path := current_image_path a;
     file_label := file_label a; predict_button := predict_button a;
     progress_running := progress_running a; status_label := status_label a;
     results_text := text; image_label := image_label a;
     dialogs := dialogs a; after_queue := after_queue a; threads := threads a;
     callback_errors := callback_errors a |}.

(** [progress], [predict_button] and [status_label] set together, as every
    [_on_...] handler does. *)
Definition set_controls (running : bool) (b : button_state) (status : string * string)
    (a : App) : App :=
  {| classifier := classifier a; current_image_path := current_image_path a;
     file_label := file_label a; predict_button := b;
     progress_running := running; status_label := status;
     results_text := results_text a; image_label := image_label a;
     dialogs := dialogs a; after_queue := after_queue a; threads := threads a;
     callback_errors := callback_errors a |}.

Definition show (d : dialog) (a : App) : App :=
  {| classifier := classifier a; current_image_path := current_image_path a;
     file_label := file_label a; predict_button := predict_button a;
     progress_running := progress_running a; status_label := status_label a;
     results_text := results_text a; image_label := image_label a;
     dialogs := (dialogs a ++ [d])%list; after_queue := after_queue a; threads := threads a;
     callback_errors := callback_errors a |}.

Definition set_after_queue (q : list callback) (a : App) : App :=
  {| classifier := classifier a; current_image_path := current_image_path a;
     file_label := file_label a; predict_button := predict_button a;
     progress_running := progress_running a; status_label := status_label a;
     results_text := results_text a; image_label := image_label a;
     dialogs := dialogs a; after_queue := q; threads := threads a;
     callback_errors := callback_errors a |}.

Definition set_threads (ts : list thread) (a : App) : App :=
  {| classifier := classifier a; current_image_path := current_image_path a;
     file_label := file_label a; predict_button := predict_button a;
     progress_running := progress_running a; status_label := status_label a;
     results_text := results_text a; image_label := image_label a;
     dialogs := dialogs a; after_queue := after_queue a; threads := ts;
     callback_errors := callback_errors a |}.

Definition report_callback_exception (e : pyexn) (a : App) : App :=
  {| classifier := classifier a; current_image_path := current_image_path a;
     file_label := file_label a; predict_button := predict_button a;
     progress_running := progress_running a; status_label := status_label a;
     results_text := results_text a; image_label := image_label a;
     dialogs := dialogs a; after_queue := after_queue a; threads := threads a;
     callback_errors := (callback_errors a ++ [e])%list |}.

(** [self.root.after(0, f)] *)
Definition root_after (f : callback) (a : App) : App :=
  set_after_queue (after_queue a ++ [f])%list a.

(** [threading.Thread(target=..., daemon=True).start()] *)
Definition start_thread (entry : pc) (a : App) : App :=
  set_threads
    (threads a ++ [{| th_pc := entry; var_e := None; var_predictions := None |}])%list a.

(** [ImageClassifierGUI.__init__]: [setup_ui] then [load_model]. *)
Definition setup_ui : App :=
  {| classifier := None; current_image_path := None;
     file_label := "No file selected"; predict_button := DISABLED;
     progress_running := false; status_label := ("Loading model...", "blue");
     results_text := ""; image_label := LabelText "No image selected";
     dialogs := []; after_queue := []; threads := []; callback_errors := [] |}.

Definition load_model (a : App) : App := start_thread LoadProgressStart a.

Definition gui_init : App := load_model setup_ui.

Definition _on_model_loaded (a : App) : App :=
  set_controls false (predict_button a) ("Model loaded successfully", "green") a.

Definition _on_model_error (error_msg : string) (a : App) : App :=
  show (showerror "Model Error" ("Failed to load model: " +:+ error_msg))
    (set_controls false (predict_button a) ("Model loading failed", "red") a).

Definition clear_results (a : App) : App := set_results "" a.

(** [display_image]: the picture is opened and shown as a thumbnail, or the
    label shows why it could not be ([decode_rgb] raises ordinary exceptions
    only, so the handler always applies). *)
Definition display_image (fs : gmap string (list Byte.byte)) (image_path : string)
    (a : App) : App :=
  match Image_open fs image_path with
  | Ok image => set_image_label LabelPhoto a
  | Raise e =>
      if is_Exception (exn_cls e)
      then set_image_label (LabelText ("Error loading image: " +:+ exn_str e)) a
      else a
  end.

(** [select_image], the file dialog having returned [file_path] (the empty
    string when the user cancelled). *)
Definition select_image (fs : gmap string (list Byte.byte)) (file_path : string)
    (a : App) : App :=
  if String.eqb file_path "" then a
  else clear_results (display_image fs file_path (set_selection file_path a)).

(** Python's truth value of [self.current_image_path]: [None] and the empty
    string are false. *)
Definition truthy (file_path : option string) : bool :=
  match file_path with
  | None => false
  | Some s => negb (String.eqb s "")
  end.

(** [classify_image]; a [ResNet50Classifier] defines neither [__bool__] nor
    [__len__], so [not self.classifier] holds of [None] only. *)
Definition classify_image (a : App) : App :=
  if negb (truthy (current_image_path a))
  then show (showwarning "No Image" "Please select an image first.") a
  else
    match classifier a with
    | None => show (showerror "Model Error" "Model is not loaded.") a
    | Some _ => start_thread ClassifyAfterStart a
    end.

Definition _on_classification_start (a : App) : App :=
  clear_results (set_controls true DISABLED ("Classifying...", "blue") a).

Definition display_results (predictions : list (string * Q)) (a : App) : App :=
  set_results (results_of predictions) a.

Definition _on_classification_complete (predictions : list (string * Q)) (a : App) : App :=
  display_results predictions
    (set_controls false NORMAL ("Classification complete", "green") a).

Definition _on_classification_error (error_msg : string) (a : App) : App :=
  show (showerror "Classification Error" ("Failed to classify image: " +:+ error_msg))
    (set_controls false NORMAL ("Classification failed", "red") a).

(** Reading a variable of a worker's frame from a lambda: a [NameError] once
    the variable is unbound. *)
Definition free_variable {A} (name : string) (v : option A) : result A :=
  match v with
  | Some x => Ok x
  | None =>
      raise NameError
        ("cannot access free variable '" +:+ name +:+
         "' where it is not associated with a value in enclosing scope")
  end.

(** Tk calling one callback; an exception it raises is reported and the
    event loop goes on. *)
Definition run_callback (f : callback) (a : App) : App :=
  let frame_of tid := default {| th_pc := Finished; var_e := None; var_predictions := None |}
                        (threads a !! tid) in
  match f with
  | on_model_loaded => _on_model_loaded a
  | lambda_model_error tid =>
      match free_variable "e" (var_e (frame_of tid)) with
      | Ok e => _on_model_error (exn_str e) a
      | Raise err => report_callback_exception err a
      end
  | on_classification_start => _on_classification_start a
  | lambda_classification_complete tid =>
      match free_variable "predictions" (var_predictions (frame_of tid)) with
      | Ok predictions => _on_classification_complete predictions a
      | Raise err => report_callback_exception err a
      end
  | lambda_classification_error tid =>
      match free_variable "e" (var_e (frame_of tid)) with
      | Ok e => _on_classification_error (exn_str e) a
      | Raise err => report_callback_exception err a
      end
  end.

(** The event loop takes the oldest pending callback. *)
Definition mainloop_step (a : App) : App :=
  match after_queue a with
  | [] => a
  | f :: rest => run_callback f (set_after_queue rest a)
  end.

Definition update_thread (tid : nat) (t : thread) (a : App) : App :=
  set_threads (<[tid := t]> (threads a)) a.

(** [except Exception as e:] entered with the exception [exn]: [e] is bound and
    the handler at [handler] runs; other exceptions end the thread. *)
Definition enter_except (tid : nat) (t : thread) (exn : pyexn) (handler : pc) (a : App) : App :=
  if is_Exception (exn_cls exn)
  then update_thread tid
         {| th_pc := handler; var_e := Some exn; var_predictions := var_predictions t |} a
  else update_thread tid (at_pc (Uncaught exn) t) a.

(** The end of an [except ... as e] clause: [e] is deleted. *)
Definition leave_except (tid : nat) (t : thread) (a : App) : App :=
  update_thread tid
    {| th_pc := Finished; var_e := None; var_predictions := var_predictions t |} a.

(** [self.classifier.predict(self.current_image_path, top_k=5)], both
    attributes read when the worker gets there. *)
Definition call_predict (fs : gmap string (list Byte.byte)) (a : App)
  : result (list (string * Q)) :=
  match classifier a with
  | None => raise AttributeError "'NoneType' object has no attribute 'predict'"
  | Some c =>
      match current_image_path a with
      | Some path => predict c fs path 5
      | None =>
          raise_handling
            (PyExn ValueError "Cannot process image: 'NoneType' object has no attribute 'read'"
               (Some (PyExn AttributeError "'NoneType' object has no attribute 'read'" None)))
            ValueError
            "Prediction failed: Cannot process image: 'NoneType' object has no attribute 'read'"
      end
  end.

(** One statement of the worker thread [tid]. *)
Definition worker_step (fs : gmap string (list Byte.byte)) (tid : nat) (a : App) : App :=
  match threads a !! tid with
  | None => a
  | Some t =>
      match th_pc t with
      | LoadProgressStart =>
          update_thread tid (at_pc LoadCreateClassifier t)
            (set_controls true (predict_button a) (status_label a) a)
      | LoadCreateClassifier =>
          match create_classifier with
          | Ok c => update_thread tid (at_pc LoadAfterLoaded t) (set_classifier (Some c) a)
          | Raise exn => enter_except tid t exn LoadAfterError a
          end
      | LoadAfterLoaded =>
          update_thread tid (at_pc Finished t) (root_after on_model_loaded a)
      | LoadAfterError =>
          update_thread tid (at_pc LoadLeaveExcept t) (root_after (lambda_model_error tid) a)
      | LoadLeaveExcept => leave_except tid t a
      | ClassifyAfterStart =>
          update_thread tid (at_pc ClassifyPredict t) (root_after on_classification_start a)
      | ClassifyPredict =>
          match call_predict fs a with
          | Ok predictions =>
              update_thread tid
                {| th_pc := ClassifyAfterComplete; var_e := var_e t;
                   var_predictions := Some predictions |} a
          | Raise exn => enter_except tid t exn ClassifyAfterError a
          end
      | ClassifyAfterComplete =>
          update_thread tid (at_pc Finished t)
            (root_after (lambda_classification_complete tid) a)
      | ClassifyAfterError =>
          update_thread tid (at_pc ClassifyLeaveExcept t)
            (root_after (lambda_classification_error tid) a)
      | ClassifyLeaveExcept => leave_except tid t a
      | Finished => a
      | Uncaught _ => a
      end
  end.

(** What can happen next: a worker runs a statement, the event loop runs a
    callback, or the user presses a button. *)
Inductive action : Set :=
  | Worker (tid : nat)
  | MainLoop
  | SelectImage (file_path : string)
  | ClassifyImage.

Definition step (fs : gmap string (list Byte.byte)) (act : action) (a : App) : App :=
  match act with
  | Worker tid => worker_step fs tid a
  | MainLoop => mainloop_step a
  | SelectImage file_path => select_image fs file_path a
  | ClassifyImage => classify_image a
  end.

(** A schedule, first action first. *)
Definition run (fs : gmap string (list Byte.byte)) (schedule : list action) (a : App) : App :=
  foldl (fun a act => step fs act a) a schedule.

End GUI.

(** ** Reference implementations of the libraries

    Stand-ins for PIL and torch that meet the interfaces above, used to run
    the program on concrete inputs. *)

(** A row with its positions: [(value, index)]. *)
Definition indexed (xs : list Q) : list (Q * nat) := zip xs (seq 0 (length xs)).

(** [a] ranks before [b]: a larger value first; among equal values [tie]
    decides by position. *)
Definition ranks_before (tie : nat -> nat -> bool) (a b : Q * nat) : bool :=
  if Qle_bool a.1 b.1 then Qle_bool b.1 a.1 && tie a.2 b.2 else true.

Definition Ranks (tie : nat -> nat -> bool) : relation (Q * nat) :=
  fun a b => ranks_before tie a b = true.

#[global] Instance Ranks_dec tie : RelDecision (Ranks tie) :=
  fun a b => bool_eq_dec (ranks_before tie a b) true.

(** Top-k by sorting the whole row. *)
Definition topk_by (tie : nat -> nat -> bool) (xs : list Q) (k : Z)
  : result (list Q * list nat) :=
  if decide (0 <= k <= Z.of_nat (length xs))%Z then
    let top := take (Z.to_nat k)
                 (merge_sort (Ranks tie) (indexed xs)) in
    Ok (top.*1, top.*2)
  else raise RuntimeError "selected index k out of range".

Lemma StronglySorted_lookup_lt {A} (R : relation A) (l : list A) i j a b :
  StronglySorted R l -> i < j -> l !! i = Some a -> l !! j = Some b -> R a b.
Proof.
  intros Hl. revert i j. induction Hl as [|x l Hl IH Hx]; intros i j Hij Ha Hb.
  - by rewrite lookup_nil in Ha.
  - destruct j as [|j]; [lia|]. destruct i as [|i]; simplify_eq/=.
    + rewrite Forall_forall in Hx. by eapply Hx, list_elem_of_lookup_2.
    + eapply (IH i j); eauto with lia.
Qed.

Section Ranking.
Variable tie : nat -> nat -> bool.
Hypothesis tie_total : forall i j, tie i j = true \/ tie j i = true.
Hypothesis tie_trans : forall i j k, tie i j = true -> tie j k = true -> tie i k = true.

Local Abbreviation R := (Ranks tie).

Lemma ranks_before_ge a b : ranks_before tie a b = true -> (b.1 <= a.1)%Q.
Proof.
  unfold ranks_before. destruct (Qle_bool a.1 b.1) eqn:E.
  - rewrite andb_true_iff, Qle_bool_iff. tauto.
  - intros _. apply Qlt_le_weak, Qnot_le_lt. rewrite <- Qle_bool_iff. congruence.
Qed.

Lemma ranks_before_total : Total R.
Proof using tie_total.
  intros a b. unfold Ranks, ranks_before.
  destruct (Qle_bool a.1 b.1) eqn:E1, (Qle_bool b.1 a.1) eqn:E2; simpl; auto.
Qed.

Lemma ranks_before_trans : Transitive R.
Proof using tie_trans.
  intros a b c. unfold Ranks, ranks_before.
  destruct (Qle_bool a.1 b.1) eqn:E1, (Qle_bool b.1 c.1) eqn:E2,
    (Qle_bool b.1 a.1) eqn:E3, (Qle_bool c.1 b.1) eqn:E4,
    (Qle_bool a.1 c.1) eqn:E5, (Qle_bool c.1 a.1) eqn:E6; simpl;
    try (intros; congruence); try (intros; eauto; fail);
    repeat match goal with
      | E : Qle_bool _ _ = true |- _ => apply Qle_bool_iff in E
      | E : Qle_bool _ _ = false |- _ =>
          apply not_true_iff_false in E; rewrite Qle_bool_iff in E
      end;
    intros; exfalso; lra.
Qed.

Lemma indexed_lookup xs v j : (v, j) ∈ indexed xs <-> xs !! j = Some v.
Proof.
  unfold indexed. rewrite list_elem_of_lookup. split.
  - intros [i Hi]. apply lookup_zip_Some in Hi as [Hv Hj].
    apply lookup_seq in Hj as [-> _]. done.
  - intros Hv. exists j. apply lookup_zip_Some. split; [done|].
    apply lookup_seq. split; [done|]. by eapply lookup_lt_Some.
Qed.

Lemma indexed_snd xs : (indexed xs).*2 = seq 0 (length xs).
Proof. unfold indexed. apply snd_zip. by rewrite length_seq. Qed.

Lemma indexed_length xs : length (indexed xs) = length xs.
Proof. unfold indexed. rewrite length_zip_with, length_seq. lia. Qed.

(** Sorting and cutting at [k] meets the contract of [torch.topk]. *)
Lemma topk_by_in_range xs k :
  (0 <= k <= Z.of_nat (length xs))%Z ->
  exists vals idxs,
    topk_by tie xs k = Ok (vals, idxs) /\ is_topk xs (Z.to_nat k) vals idxs.
Proof using tie_total tie_trans.
  intros Hk. unfold topk_by. rewrite decide_True by done.
  set (sorted := merge_sort R (indexed xs)).
  assert (Hperm : sorted ≡ₚ indexed xs) by apply merge_sort_Permutation.
  assert (Hsort : StronglySorted R sorted).
  { pose proof ranks_before_trans. pose proof ranks_before_total.
    apply (StronglySorted_merge_sort R). }
  assert (Hlen : length sorted = length xs).
  { by rewrite Hperm, indexed_length. }
  set (n := Z.to_nat k). assert (Hn : n <= length xs) by lia.
  eexists _, _. split; [reflexivity|]. split.
  - rewrite length_fmap, length_take. lia.
  - rewrite length_fmap, length_take. lia.
  - rewrite fmap_take. eapply sublist_NoDup; [|apply sublist_take].
    rewrite Hperm, indexed_snd. apply NoDup_seq.
  - intros i idx Hi. rewrite list_lookup_fmap in Hi. rewrite list_lookup_fmap.
    destruct (take n sorted !! i) as [[v j]|] eqn:E; simplify_eq/=.
    symmetry. apply indexed_lookup. rewrite <- Hperm.
    apply lookup_take_Some in E as [E _]. by eapply list_elem_of_lookup_2.
  - intros i j a b Hij Ha Hb. rewrite list_lookup_fmap in Ha, Hb.
    destruct (take n sorted !! i) as [[va ia]|] eqn:Ei; simplify_eq/=.
    destruct (take n sorted !! j) as [[vb ib]|] eqn:Ej; simplify_eq/=.
    rewrite <- (take_drop n sorted) in Hsort.
    apply StronglySorted_app_1_l in Hsort.
    apply (ranks_before_ge (a, ia) (b, ib)).
    eapply (StronglySorted_lookup_lt R); eauto.
  - intros j x v Hx Hj Hv.
    apply list_elem_of_fmap in Hv as [[v' i] [-> Hv]].
    apply indexed_lookup in Hx. rewrite <- Hperm, <- (take_drop n sorted) in Hx.
    apply elem_of_app in Hx as [Hx|Hx].
    { destruct Hj. apply list_elem_of_fmap. by exists (x, j). }
    rewrite <- (take_drop n sorted) in Hsort.
    apply (ranks_before_ge (v', i) (x, j)).
    eapply (StronglySorted_app_1_elem_of R); eauto.
Qed.

Lemma topk_by_out_of_range xs k :
  ~ (0 <= k <= Z.of_nat (length xs))%Z ->
  exists e, topk_by tie xs k = Raise e /\ exn_cls e = RuntimeError.
Proof.
  intros Hk. unfold topk_by. rewrite decide_False by done. by eexists.
Qed.

End Ranking.

(** A picture format for tests: five bytes, the width, the height and the
    colour of a solid picture. *)
Definition solid_decode (data : list Byte.byte) : result Image :=
  match data with
  | [w; h; r; g; b] =>
      if (Byte.to_nat w =? 0) || (Byte.to_nat h =? 0)
      then raise UnidentifiedImageError "cannot identify image file"
      else Ok {| im_width := Byte.to_nat w; im_height := Byte.to_nat h;
                 im_pixel := fun _ _ band =>
                   Z.of_nat (Byte.to_nat (nth band [r; g; b] b)) |}
  | _ => raise UnidentifiedImageError "cannot identify image file"
  end.

(** Nearest-neighbour resampling. *)
Definition nearest (img : Image) (w h x y band : nat) : Z :=
  im_pixel img (x * im_width img / w) (y * im_height img / h) band.

Lemma solid_decode_empty : exists e, solid_decode [] = Raise e.
Proof. by eexists. Qed.

Lemma solid_decode_Exception data e :
  solid_decode data = Raise e -> is_Exception (exn_cls e) = true.
Proof.
  unfold solid_decode, raise. intros He.
  repeat (case_match; simplify_eq/=); done.
Qed.

Lemma exact_nonzero x : (1 # 1000 <= x)%Q -> Qeq_bool 0 x = false.
Proof.
  intros Hx. apply not_true_iff_false. intros Heq. apply Qeq_bool_eq in Heq. lra.
Qed.

(** Arithmetic without rounding stands in for float32. *)
Definition solid_imaging : Imaging :=
  {| decode_rgb := solid_decode;
     interpolate := nearest;
     float32_of_decimal := fun x => x;
     float32_sub := Qminus;
     float32_div := Qdiv;
     float32_of_decimal_nonzero := exact_nonzero;
     decode_rgb_empty := solid_decode_empty;
     decode_rgb_Exception := solid_decode_Exception |}.

(** A network for tests: class [i] scores [i mod 4] on every picture, so a
    quarter of the classes share the best score. *)
Definition demo_scores : list Q :=
  (fun i => inject_Z (Z.of_nat (i mod 4))) <$> seq 0 1000.

Definition demo_forward (net : Module unit) (t : Tensor) : result (list Q) :=
  if decide (shape t = [1; 3; 224; 224]) then Ok demo_scores
  else raise RuntimeError "mat1 and mat2 shapes cannot be multiplied".

(** A stand-in for the softmax: positive weights scaled to sum to 1. *)
Definition demo_softmax (xs : list Q) : list Q :=
  let total := foldr Qplus 0%Q ((fun x => x + 1)%Q <$> xs) in
  (fun x => (x + 1) / total)%Q <$> xs.

Lemma demo_forward_scores net t :
  shape t = [1; 3; 224; 224] ->
  exists scores, demo_forward net t = Ok scores /\ length scores = 1000.
Proof.
  intros Ht. unfold demo_forward. rewrite decide_True by done.
  eexists. split; [done|]. unfold demo_scores. by rewrite length_fmap, length_seq.
Qed.

Lemma demo_forward_Exception net t e :
  demo_forward net t = Raise e -> is_Exception (exn_cls e) = true.
Proof. unfold demo_forward, raise. case_decide; intros; by simplify_eq/=. Qed.

Lemma demo_softmax_length xs : length (demo_softmax xs) = length xs.
Proof. unfold demo_softmax. by rewrite length_fmap. Qed.

(** Equal values: the lower index first. *)
Definition lower_first (i j : nat) : bool := i <=? j.
(** Equal values: the higher index first. *)
Definition higher_first (i j : nat) : bool := j <=? i.

Lemma lower_first_total i j : lower_first i j = true \/ lower_first j i = true.
Proof. unfold lower_first. rewrite !Nat.leb_le. lia. Qed.

Lemma lower_first_trans i j k :
  lower_first i j = true -> lower_first j k = true -> lower_first i k = true.
Proof. unfold lower_first. rewrite !Nat.leb_le. lia. Qed.

Lemma higher_first_total i j : higher_first i j = true \/ higher_first j i = true.
Proof. unfold higher_first. rewrite !Nat.leb_le. lia. Qed.

Lemma higher_first_trans i j k :
  higher_first i j = true -> higher_first j k = true -> higher_first i k = true.
Proof. unfold higher_first. rewrite !Nat.leb_le. lia. Qed.

Lemma loaded_Exception (e : pyexn) :
  @Ok unit () = Raise e -> is_Exception (exn_cls e) = true.
Proof. done. Qed.

(** Weights at hand; [topk] orders equal values by ascending index. *)
Definition torch_lower_first : Torch :=
  {| Weights := unit;
     resnet50 := Ok ();
     forward := demo_forward;
     softmax := demo_softmax;
     topk := topk_by lower_first;
     resnet50_Exception := loaded_Exception;
     forward_scores := demo_forward_scores;
     forward_Exception := demo_forward_Exception;
     softmax_length := demo_softmax_length;
     topk_in_range := topk_by_in_range lower_first lower_first_total lower_first_trans;
     topk_out_of_range := topk_by_out_of_range lower_first |}.

(** Weights at hand; [topk] orders equal values by descending index. *)
Definition torch_higher_first : Torch :=
  {| Weights := unit;
     resnet50 := Ok ();
     forward := demo_forward;
     softmax := demo_softmax;
     topk := topk_by higher_first;
     resnet50_Exception := loaded_Exception;
     forward_scores := demo_forward_scores;
     forward_Exception := demo_forward_Exception;
     softmax_length := demo_softmax_length;
     topk_in_range := topk_by_in_range higher_first higher_first_total higher_first_trans;
     topk_out_of_range := topk_by_out_of_range higher_first |}.

Definition weights_unavailable : pyexn :=
  PyExn OSError "<urlopen error [Errno -3] Temporary failure in name resolution>" None.

Lemma unavailable_Exception (e : pyexn) :
  @Raise unit weights_unavailable = Raise e -> is_Exception (exn_cls e) = true.
Proof. intros; by simplify_eq/=. Qed.

(** The weights cannot be fetched: [models.resnet50] raises. *)
Definition torch_offline : Torch :=
  {| Weights := unit;
     resnet50 := Raise weights_unavailable;
     forward := demo_forward;
     softmax := demo_softmax;
     topk := topk_by lower_first;
     resnet50_Exception := unavailable_Exception;
     forward_scores := demo_forward_scores;
     forward_Exception := demo_forward_Exception;
     softmax_length := demo_softmax_length;
     topk_in_range := topk_by_in_range lower_first lower_first_total lower_first_trans;
     topk_out_of_range := topk_by_out_of_range lower_first |}.

(** A disk with a solid red 100x100 picture, a text file and an empty file. *)
Definition demo_fs : gmap string (list Byte.byte) :=
  {[ "red.img" := [Byte.x64; Byte.x64; Byte.xff; Byte.x00; Byte.x00];
     "notes.txt" := [Byte.x68; Byte.x69];
     "empty.jpg" := [] ]}.

(** The classifier [create_classifier] returns when the weights [w] load. *)
Definition loaded_classifier `{Imaging} `{Torch} (w : Weights) : ResNet50Classifier :=
  {| model := Some {| parameters := w; training := false |};
     transform := Some imagenet_transform;
     class_labels := Some imagenet_labels |}.


(** * Properties *)

(** ** Vocabulary of the specification *)

(** A valid image path: the file is there and decodes to a picture that is
    at least one pixel wide and high. *)
Definition valid_image `{Imaging} (fs : gmap string (list Byte.byte)) (path : string) : Prop :=
  exists img, Image_open fs path = Ok img /\ 0 < im_width img /\ 0 < im_height img.

(** [name] is the label of class [idx]: the table's entry, or the placeholder
    past the end of the table. *)
Definition names_class (labels : list string) (idx : nat) (name : string) : Prop :=
  (idx < length labels -> labels !! idx = Some name) /\
  (length labels <= idx -> name = "Class_" +:+ pretty idx).

(** Confidences never increase along a Prediction. *)
Definition non_increasing (preds : list (string * Q)) : Prop :=
  forall i j a b, i < j -> preds !! i = Some a -> preds !! j = Some b -> (b.2 <= a.2)%Q.

(** Entries of equal confidence stand in ascending order of class index. *)
Definition ties_ascending (vals : list Q) (idxs : list nat) : Prop :=
  forall i j a b ia ib,
    i < j -> vals !! i = Some a -> vals !! j = Some b -> (a == b)%Q ->
    idxs !! i = Some ia -> idxs !! j = Some ib -> ia < ib.

(** ** Results and handlers *)

Lemma bind_Ok {A B} (r : result A) (f : A -> result B) b :
  r ≫= f = Ok b <-> exists a, r = Ok a /\ f a = Ok b.
Proof.
  destruct r as [a|e]; simpl; split.
  - intros Hf. by exists a.
  - by intros [a' [[= <-] Hf]].
  - done.
  - by intros [a' [? _]].
Qed.

Lemma bind_Raise {A B} (r : result A) (f : A -> result B) e :
  r ≫= f = Raise e <-> r = Raise e \/ exists a, r = Ok a /\ f a = Raise e.
Proof.
  destruct r as [a|e']; simpl; split.
  - intros Hf. right. by exists a.
  - intros [?|[a' [[= <-] Hf]]]; done.
  - intros [= <-]. by left.
  - intros [[= <-]|[a' [? _]]]; done.
Qed.

Lemma try_except_Ok {A} (body : result A) handler a :
  (forall e, handler e <> Ok a) ->
  try_except body handler = Ok a <-> body = Ok a.
Proof.
  intros Hh. unfold try_except. destruct body as [a'|e]; [done|].
  destruct (is_Exception (exn_cls e)); [|done]. split; [|done].
  intros Hbad. by destruct (Hh e).
Qed.

Lemma getitem_Ok {A} (l : list A) i a : getitem l i = Ok a <-> l !! i = Some a.
Proof. unfold getitem, raise. destruct (l !! i); split; congruence. Qed.

Lemma getitem_Exception {A} (l : list A) i e :
  getitem l i = Raise e -> is_Exception (exn_cls e) = true.
Proof. unfold getitem, raise. destruct (l !! i); intros; by simplify_eq/=. Qed.

Lemma not_None_Exception {A} what (o : option A) e :
  not_None what o = Raise e -> is_Exception (exn_cls e) = true.
Proof. unfold not_None, raise. destruct o; intros; by simplify_eq/=. Qed.

(** ** Preprocessing *)

(** [int(round(d / 2.0))] is one of the two halves of [d]. *)
Lemma round_half_bounds d : d / 2 <= round_half d /\ round_half d <= (d + 1) / 2.
Proof.
  unfold round_half. destruct (Nat.Even_or_Odd d) as [[m ->]|[m ->]].
  - rewrite Nat.even_even.
    rewrite <- (Nat.div_unique (2 * m) 2 m 0) by lia.
    rewrite <- (Nat.div_unique (2 * m + 1) 2 m 1) by lia. lia.
  - rewrite Nat.even_odd.
    rewrite <- (Nat.div_unique (2 * m + 1) 2 m 1) by lia.
    rewrite <- (Nat.div_unique (2 * m + 1 + 1) 2 (S m) 0) by lia.
    destruct (Nat.even m); lia.
Qed.

Section Preprocessing.
Context `{Imaging} `{Torch}.

Lemma Resize_Ok size img :
  0 < im_width img -> 0 < im_height img ->
  exists resized,
    Resize size img = Ok resized /\
    Nat.min (im_width resized) (im_height resized) = size /\
    im_pixel resized = interpolate img (im_width resized) (im_height resized).
Proof.
  intros Hw Hh. unfold Resize.
  destruct (im_width img <=? im_height img) eqn:Hle.
  - apply Nat.leb_le in Hle.
    rewrite (proj2 (Nat.eqb_neq _ _)) by lia.
    eexists. split; [reflexivity|]. simpl. split; [|done].
    apply Nat.min_l, Nat.div_le_lower_bound; nia.
  - apply Nat.leb_gt in Hle.
    rewrite (proj2 (Nat.eqb_neq _ _)) by lia.
    eexists. split; [reflexivity|]. simpl. split; [|done].
    apply Nat.min_r, Nat.div_le_lower_bound; nia.
Qed.

Lemma Resize_size size img resized :
  Resize size img = Ok resized ->
  (im_width resized, im_height resized) =
    if im_width img <=? im_height img
    then (size, size * im_height img / im_width img)
    else (size * im_width img / im_height img, size).
Proof.
  unfold Resize, raise. destruct (im_width img <=? im_height img);
    case_match; intros; by simplify_eq/=.
Qed.

Lemma CenterCrop_window img :
  0 < im_width img -> 0 < im_height img ->
  exists resized,
    Resize 256 img = Ok resized /\
    256 <= im_width resized /\ 256 <= im_height resized /\
    let left := round_half (im_width resized - 224) in
    let top := round_half (im_height resized - 224) in
    left + 224 <= im_width resized /\
    top + 224 <= im_height resized /\
    left <= (im_width resized - 224 - left) + 1 /\
    im_width resized - 224 - left <= left + 1 /\
    top <= (im_height resized - 224 - top) + 1 /\
    im_height resized - 224 - top <= top + 1 /\
    forall x y band, x < 224 -> y < 224 ->
      im_pixel (CenterCrop 224 resized) x y band = im_pixel resized (left + x) (top + y) band.
Proof.
  intros Hw Hh. destruct (Resize_Ok 256 img Hw Hh) as (resized & Hr & Hmin & _).
  exists resized. split; [done|].
  assert (Hw' : 256 <= im_width resized) by lia.
  assert (Hh' : 256 <= im_height resized) by lia.
  split; [done|]. split; [done|].
  pose proof (round_half_bounds (im_width resized - 224)) as [Hl1 Hl2].
  pose proof (round_half_bounds (im_height resized - 224)) as [Ht1 Ht2].
  pose proof (Nat.div_mod_eq (im_width resized - 224) 2) as Hdw.
  pose proof (Nat.mod_upper_bound (im_width resized - 224) 2 ltac:(lia)) as Hmw.
  pose proof (Nat.div_mod_eq (im_height resized - 224) 2) as Hdh.
  pose proof (Nat.mod_upper_bound (im_height resized - 224) 2 ltac:(lia)) as Hmh.
  pose proof (Nat.div_mod_eq (im_width resized - 224 + 1) 2) as Hdw1.
  pose proof (Nat.div_mod_eq (im_height resized - 224 + 1) 2) as Hdh1.
  cbv zeta. do 6 (split; [lia|]).
  intros x y band Hx Hy. unfold CenterCrop. cbn [im_pixel im_width im_height].
  rewrite (proj2 (Nat.ltb_ge _ _)) by lia.
  rewrite (proj2 (Nat.ltb_ge (im_height resized) 224)) by lia.
  rewrite !Nat.max_l by lia. simpl.
  rewrite (proj2 (Nat.ltb_lt _ _)) by lia.
  rewrite (proj2 (Nat.ltb_lt _ (im_height resized))) by lia.
  simpl. by rewrite !Nat.sub_0_r.
Qed.

Lemma Resize_Exception size img e :
  Resize size img = Raise e -> is_Exception (exn_cls e) = true.
Proof. unfold Resize, raise. case_match; intros; by simplify_eq/=. Qed.

Lemma Normalize_Exception mean std t e :
  Normalize mean std t = Raise e -> is_Exception (exn_cls e) = true.
Proof. unfold Normalize, raise. repeat case_match; intros; by simplify_eq/=. Qed.

(** The normalised value of a band: [(v / 255 - mean) / std] in float32
    arithmetic. *)
Definition normalized (v : Z) (c : nat) : Q :=
  float32_div
    (float32_sub (float32_div (inject_Z v) 255%Q)
       (float32_of_decimal (nth c imagenet_mean 0%Q)))
    (float32_of_decimal (nth c imagenet_std 1%Q)).

Lemma imagenet_std_nonzero :
  existsb (fun x => Qeq_bool 0 (float32_of_decimal x)) imagenet_std = false.
Proof.
  unfold imagenet_std. cbn [existsb].
  rewrite !float32_of_decimal_nonzero; [done|lra..].
Qed.

Lemma imagenet_transform_Ok img resized :
  Resize 256 img = Ok resized ->
  exists t,
    imagenet_transform img = Ok t /\
    shape t = [3; 224; 224] /\
    forall c y x,
      item_at t [c; y; x] = normalized (im_pixel (CenterCrop 224 resized) x y c) c.
Proof.
  intros Hr. unfold imagenet_transform. rewrite Hr.
  cbn [mbind result_bind]. unfold Normalize.
  cbn [ToTensor CenterCrop shape im_width im_height length hd Nat.ltb Nat.leb].
  rewrite imagenet_std_nonzero. cbn.
  eexists. split; [reflexivity|]. split; [reflexivity|]. reflexivity.
Qed.

Lemma imagenet_transform_Exception img e :
  imagenet_transform img = Raise e -> is_Exception (exn_cls e) = true.
Proof.
  unfold imagenet_transform. intros He. apply bind_Raise in He as [He|(r & _ & He)].
  - by eapply Resize_Exception.
  - by eapply Normalize_Exception.
Qed.

Lemma Image_open_Exception fs path e :
  Image_open fs path = Raise e -> is_Exception (exn_cls e) = true.
Proof.
  unfold Image_open, raise. destruct (fs !! path).
  - apply decode_rgb_Exception.
  - intros; by simplify_eq/=.
Qed.

(** A missing or undecodable file: the [ValueError] carries what [Image.open]
    raised. *)
Lemma preprocess_image_undecodable self fs path e :
  Image_open fs path = Raise e ->
  preprocess_image self fs path =
    Raise (PyExn ValueError ("Cannot process image: " +:+ exn_str e) (Some e)).
Proof.
  intros He. unfold preprocess_image, try_except. rewrite He. simpl.
  by rewrite (Image_open_Exception _ _ _ He).
Qed.

(** With the pipeline of [_setup_transforms] in place, every failure of
    [preprocess_image] is a [ValueError] that carries its cause. *)
Lemma preprocess_image_Raise self fs path x :
  transform self = Some imagenet_transform ->
  preprocess_image self fs path = Raise x ->
  exists e, x = PyExn ValueError ("Cannot process image: " +:+ exn_str e) (Some e) /\
    (Image_open fs path = Raise e \/
     exists img, Image_open fs path = Ok img /\ imagenet_transform img = Raise e).
Proof.
  intros Htf. unfold preprocess_image, raise_handling. rewrite Htf.
  destruct (Image_open fs path) as [img|e] eqn:Hopen; simpl.
  - destruct (imagenet_transform img) as [t|e] eqn:Ht; simpl; [done|].
    rewrite (imagenet_transform_Exception _ _ Ht). intros [= <-].
    exists e. split; [done|]. right. by exists img.
  - rewrite (Image_open_Exception _ _ _ Hopen). intros [= <-].
    exists e. split; [done|]. by left.
Qed.

(** A picture that opens and has a positive size becomes a 1x3x224x224
    batch of normalised values. *)
Lemma preprocess_image_Ok self fs path img :
  transform self = Some imagenet_transform ->
  Image_open fs path = Ok img -> 0 < im_width img -> 0 < im_height img ->
  exists resized t,
    Resize 256 img = Ok resized /\
    Nat.min (im_width resized) (im_height resized) = 256 /\
    preprocess_image self fs path = Ok t /\
    shape t = [1; 3; 224; 224] /\
    forall c y x,
      item_at t [0; c; y; x] = normalized (im_pixel (CenterCrop 224 resized) x y c) c.
Proof.
  intros Htf Hopen Hw Hh.
  destruct (Resize_Ok 256 img Hw Hh) as (resized & Hr & Hmin & _).
  destruct (imagenet_transform_Ok img resized Hr) as (t & Ht & Hshape & Hval).
  exists resized, (unsqueeze0 t). split; [done|]. split; [done|].
  unfold preprocess_image. rewrite Hopen, Htf. simpl. rewrite Ht. simpl.
  split; [done|]. split; [by rewrite Hshape|]. intros c y x. apply Hval.
Qed.

End Preprocessing.

(** ** Construction *)

Section Construction.
Context `{Imaging} `{Torch}.

Lemma create_classifier_loaded w :
  resnet50 = Ok w -> create_classifier = Ok (loaded_classifier w).
Proof.
  intros Hw. unfold create_classifier, __init__, _setup_model. by rewrite Hw.
Qed.

Lemma create_classifier_Ok c :
  create_classifier = Ok c -> exists w, resnet50 = Ok w /\ c = loaded_classifier w.
Proof.
  unfold create_classifier, __init__, _setup_model.
  destruct resnet50 as [w|e] eqn:Hw; simpl.
  - intros [= <-]. by exists w.
  - by destruct (is_Exception (exn_cls e)).
Qed.

Lemma create_classifier_Raise e :
  create_classifier = Raise e -> resnet50 = Raise e.
Proof.
  unfold create_classifier, __init__, _setup_model.
  destruct resnet50 as [w|e'] eqn:Hw; simpl; [done|].
  destruct (is_Exception (exn_cls e')); by intros [= <-].
Qed.

Lemma create_classifier_fails e :
  resnet50 = Raise e -> create_classifier = Raise e.
Proof.
  intros He. unfold create_classifier, __init__, _setup_model. rewrite He. simpl.
  by rewrite (resnet50_Exception _ He).
Qed.

End Construction.

(** ** Ranking and labelling *)

Section Prediction.
Context `{Imaging} `{Torch}.

Lemma class_name_of_Ok self labels idx :
  class_labels self = Some labels ->
  exists name, class_name_of self idx = Ok name /\ names_class labels idx name.
Proof.
  intros Hl. unfold class_name_of, names_class. rewrite Hl. simpl.
  destruct (idx <? length labels) eqn:Hlt.
  - apply Nat.ltb_lt in Hlt. destruct (lookup_lt_is_Some_2 labels idx Hlt) as [name Hn].
    exists name. rewrite (proj2 (getitem_Ok _ _ _) Hn). split; [done|]. split; [done|lia].
  - apply Nat.ltb_ge in Hlt. eexists. split; [done|]. split; [lia|done].
Qed.

(** Entry [i] of a Prediction comes from position [i] of the ranking. *)
Definition entry_from (labels : list string) (top_prob : list Q) (top_class : list nat)
    (i : nat) (entry : string * Q) : Prop :=
  exists idx, top_class !! i = Some idx /\ top_prob !! i = Some entry.2 /\
    names_class labels idx entry.1.

(** When the loop ends normally it has appended one entry per index. *)
Lemma loop_Ok self labels top_prob top_class n :
  class_labels self = Some labels ->
  forall s acc preds,
    for_in (seq s n) (append_prediction self top_prob top_class) acc = Ok preds ->
    exists tail, preds = (acc ++ tail)%list /\ length tail = n /\
      forall j entry, tail !! j = Some entry ->
        entry_from labels top_prob top_class (s + j) entry.
Proof.
  intros Hl. induction n as [|n IH]; intros s acc preds; simpl.
  - intros [= <-]. exists []. rewrite app_nil_r. split; [done|]. split; [done|].
    intros j entry. by rewrite lookup_nil.
  - intros Hloop. apply bind_Ok in Hloop as (acc' & Hbody & Hloop).
    unfold append_prediction in Hbody.
    apply bind_Ok in Hbody as (idx & Hidx & Hbody).
    apply bind_Ok in Hbody as (conf & Hconf & Hbody).
    apply bind_Ok in Hbody as (name & Hname & [= <-]).
    apply getitem_Ok in Hidx, Hconf.
    destruct (class_name_of_Ok self labels idx Hl) as (name' & Hname' & Hnames).
    rewrite Hname in Hname'. injection Hname' as <-.
    destruct (IH _ _ _ Hloop) as (tail & -> & Hlen & Htail).
    exists ((name, conf) :: tail). rewrite <- app_assoc. split; [done|].
    split; [simpl; lia|]. intros [|j] entry; simpl.
    + intros [= <-]. rewrite Nat.add_0_r. by exists idx.
    + intros Hj. replace (s + S j) with (S s + j) by lia. by apply Htail.
Qed.

(** The loop ends normally when both rows reach far enough. *)
Lemma loop_total self labels top_prob top_class n :
  class_labels self = Some labels ->
  forall s acc,
    s + n <= length top_class -> s + n <= length top_prob ->
    exists preds,
      for_in (seq s n) (append_prediction self top_prob top_class) acc = Ok preds.
Proof.
  intros Hl. induction n as [|n IH]; intros s acc Hc Hp; cbn [for_in seq]; [by eexists|].
  destruct (lookup_lt_is_Some_2 top_class s) as [idx Hidx]; [lia|].
  destruct (lookup_lt_is_Some_2 top_prob s) as [conf Hconf]; [lia|].
  destruct (class_name_of_Ok self labels idx Hl) as (name & Hname & _).
  assert (append_prediction self top_prob top_class acc s
          = Ok (acc ++ [(name, conf)])%list) as ->.
  { unfold append_prediction.
    rewrite (proj2 (getitem_Ok _ _ _) Hidx), (proj2 (getitem_Ok _ _ _) Hconf). simpl.
    by rewrite Hname. }
  simpl. apply IH; lia.
Qed.

Lemma readable_Ok self labels top_prob top_class top_k preds :
  class_labels self = Some labels ->
  readable self top_prob top_class top_k = Ok preds ->
  length preds = Z.to_nat top_k /\
  forall i entry, preds !! i = Some entry -> entry_from labels top_prob top_class i entry.
Proof.
  intros Hl Hr. unfold readable, range in Hr.
  destruct (loop_Ok _ _ _ _ _ Hl _ _ _ Hr) as (tail & -> & Hlen & Htail).
  simpl. split; [done|]. intros i entry. apply Htail.
Qed.

Lemma readable_total self labels top_prob top_class top_k :
  class_labels self = Some labels ->
  length top_class = Z.to_nat top_k -> length top_prob = Z.to_nat top_k ->
  exists preds, readable self top_prob top_class top_k = Ok preds.
Proof.
  intros Hl Hc Hp. unfold readable, range.
  eapply loop_total; eauto; lia.
Qed.

Lemma loop_Exception self labels top_prob top_class n e :
  class_labels self = Some labels ->
  forall s acc,
    for_in (seq s n) (append_prediction self top_prob top_class) acc = Raise e ->
    is_Exception (exn_cls e) = true.
Proof.
  intros Hl. induction n as [|n IH]; intros s acc; simpl; [done|].
  intros Hloop. apply bind_Raise in Hloop as [Hbody|(acc' & _ & Hloop)]; [|by eapply IH].
  unfold append_prediction in Hbody.
  apply bind_Raise in Hbody as [He|(idx & _ & Hbody)]; [by eapply getitem_Exception|].
  apply bind_Raise in Hbody as [He|(conf & _ & Hbody)]; [by eapply getitem_Exception|].
  apply bind_Raise in Hbody as [He|(name & _ & Hbody)]; [|done].
  destruct (class_name_of_Ok self labels idx Hl) as (name & Hname & _). congruence.
Qed.

Lemma top_predictions_Ok w fs path k vals idxs :
  top_predictions (loaded_classifier w) fs path k = Ok (vals, idxs) ->
  exists probs, is_topk probs (Z.to_nat k) vals idxs.
Proof.
  unfold top_predictions. intros Htop.
  apply bind_Ok in Htop as (t & _ & Htop).
  apply bind_Ok in Htop as (net & _ & Htop).
  apply bind_Ok in Htop as (outputs & _ & Htop).
  exists (softmax outputs).
  destruct (decide (0 <= k <= Z.of_nat (length (softmax outputs)))%Z) as [Hk|Hk].
  - destruct (topk_in_range _ _ Hk) as (vals' & idxs' & Htop' & Hspec). congruence.
  - destruct (topk_out_of_range _ _ Hk) as (e & Htop' & _). congruence.
Qed.

Lemma top_predictions_valid w fs path k :
  valid_image fs path -> (0 <= k <= 1000)%Z ->
  exists vals idxs probs,
    top_predictions (loaded_classifier w) fs path k = Ok (vals, idxs) /\
    length probs = 1000 /\ is_topk probs (Z.to_nat k) vals idxs.
Proof.
  intros (img & Hopen & Hw & Hh) Hk.
  destruct (preprocess_image_Ok (loaded_classifier w) fs path img eq_refl Hopen Hw Hh)
    as (resized & t & _ & _ & Ht & Hshape & _).
  destruct (forward_scores {| parameters := w; training := false |} t Hshape)
    as (scores & Hf & Hlen).
  assert (Hlen' : length (softmax scores) = 1000) by by rewrite softmax_length.
  destruct (topk_in_range (softmax scores) k) as (vals & idxs & Htop & Hspec); [lia|].
  exists vals, idxs, (softmax scores). split; [|done].
  unfold top_predictions. rewrite Ht. simpl. by rewrite Hf.
Qed.

Lemma top_predictions_Exception w fs path k e :
  top_predictions (loaded_classifier w) fs path k = Raise e ->
  is_Exception (exn_cls e) = true.
Proof.
  unfold top_predictions. intros Htop.
  apply bind_Raise in Htop as [He|(t & _ & Htop)].
  { by destruct (preprocess_image_Raise (loaded_classifier w) _ _ _ eq_refl He)
      as (e' & -> & _). }
  apply bind_Raise in Htop as [He|(net & _ & Htop)]; [by eapply not_None_Exception|].
  apply bind_Raise in Htop as [He|(outputs & _ & Htop)]; [by eapply forward_Exception|].
  destruct (decide (0 <= k <= Z.of_nat (length (softmax outputs)))%Z) as [Hk|Hk].
  - destruct (topk_in_range _ _ Hk) as (vals' & idxs' & Htop' & Hspec). congruence.
  - destruct (topk_out_of_range _ _ Hk) as (e' & Htop' & Hcls).
    rewrite Htop in Htop'. injection Htop' as <-. by rewrite Hcls.
Qed.

Lemma predict_body_Exception w fs path k e :
  predict_body (loaded_classifier w) fs path k = Raise e ->
  is_Exception (exn_cls e) = true.
Proof.
  unfold predict_body. intros Hb.
  apply bind_Raise in Hb as [He|([vals idxs] & _ & Hb)].
  - by eapply top_predictions_Exception.
  - unfold readable in Hb.
    by eapply (loop_Exception (loaded_classifier w) imagenet_labels); [reflexivity|].
Qed.

Lemma predict_Ok w fs path k preds :
  predict (loaded_classifier w) fs path k = Ok preds <->
  predict_body (loaded_classifier w) fs path k = Ok preds.
Proof. unfold predict. by apply try_except_Ok. Qed.

Lemma predict_Raise w fs path k e :
  predict_body (loaded_classifier w) fs path k = Raise e ->
  predict (loaded_classifier w) fs path k =
    Raise (PyExn ValueError ("Prediction failed: " +:+ exn_str e) (Some e)).
Proof.
  intros Hb. unfold predict, try_except. rewrite Hb.
  by rewrite (predict_body_Exception _ _ _ _ _ Hb).
Qed.

Lemma predict_Raise_ValueError w fs path k x :
  predict (loaded_classifier w) fs path k = Raise x -> exn_cls x = ValueError.
Proof.
  intros Hx. destruct (predict_body (loaded_classifier w) fs path k) as [p|e] eqn:Hb.
  - apply predict_Ok in Hb. congruence.
  - rewrite (predict_Raise _ _ _ _ _ Hb) in Hx. by injection Hx as <-.
Qed.

(** A valid picture and a [top_k] from 0 to the number of classes: [predict]
    returns, one entry per rank. *)
Lemma predict_valid w fs path k :
  valid_image fs path -> (0 <= k <= 1000)%Z ->
  exists vals idxs probs preds,
    top_predictions (loaded_classifier w) fs path k = Ok (vals, idxs) /\
    length probs = 1000 /\ is_topk probs (Z.to_nat k) vals idxs /\
    predict (loaded_classifier w) fs path k = Ok preds /\
    length preds = Z.to_nat k /\
    forall i entry, preds !! i = Some entry -> entry_from imagenet_labels vals idxs i entry.
Proof.
  intros Hvalid Hk.
  destruct (top_predictions_valid w fs path k Hvalid Hk)
    as (vals & idxs & probs & Htop & Hlen & Hspec).
  destruct (readable_total (loaded_classifier w) imagenet_labels vals idxs k eq_refl)
    as [preds Hpreds]; [apply Hspec..|].
  destruct (readable_Ok (loaded_classifier w) imagenet_labels _ _ _ _ eq_refl Hpreds)
    as [Hn Hentries].
  exists vals, idxs, probs, preds. repeat split; try done; try apply Hspec.
  apply predict_Ok. unfold predict_body. by rewrite Htop.
Qed.

End Prediction.

(** ** The classifier: claims *)

Lemma red_valid : @valid_image solid_imaging demo_fs "red.img".
Proof.
  eexists. split; [vm_compute; reflexivity|]. simpl. lia.
Qed.

Section ModelClaims.
Context `{Imaging} `{Torch}.

(** C1: for a valid image path and an integer k from 1 to ten times the size
    of the label table (300 for the 30 labels), [predict] returns a list of
    exactly k entries, also when k is larger than the label table. *)
Theorem predict_returns_top_k c fs path (k : Z) :
  create_classifier = Ok c ->
  valid_image fs path ->
  (1 <= k <= Z.of_nat (length imagenet_labels) * 10)%Z ->
  exists preds, predict c fs path k = Ok preds /\ Z.of_nat (length preds) = k.
Proof.
  intros Hc Hvalid Hk. apply create_classifier_Ok in Hc as (w & _ & ->).
  change (length imagenet_labels) with 30 in Hk.
  destruct (predict_valid w fs path k Hvalid) as (_ & _ & _ & preds & _ & _ & _ & Hp & Hn & _);
    [lia|].
  exists preds. split; [done|]. lia.
Qed.

(** C2, as amended: for a valid image and a top_k from 1 to the number of
    classes, the confidences of the returned Prediction never increase from
    one entry to the next.  (The order among equal confidences is the one
    [torch.topk] returns.) *)
Theorem predict_non_increasing c fs path (k : Z) :
  create_classifier = Ok c ->
  valid_image fs path ->
  (1 <= k <= 1000)%Z ->
  exists preds, predict c fs path k = Ok preds /\ non_increasing preds.
Proof.
  intros Hc Hvalid Hk. apply create_classifier_Ok in Hc as (w & _ & ->).
  destruct (predict_valid w fs path k Hvalid)
    as (vals & idxs & probs & preds & _ & _ & Hspec & Hp & _ & Hentries); [lia|].
  exists preds. split; [done|]. intros i j a b Hij Ha Hb.
  destruct (Hentries _ _ Ha) as (_ & _ & Hva & _).
  destruct (Hentries _ _ Hb) as (_ & _ & Hvb & _).
  by eapply (topk_sorted _ _ _ _ Hspec i j).
Qed.

(** C3, as amended: [predict] called with top_k = 0 on a valid image does not
    fail; it returns the empty Prediction. *)
Theorem predict_zero_is_empty c fs path :
  create_classifier = Ok c ->
  valid_image fs path ->
  predict c fs path 0 = Ok [].
Proof.
  intros Hc Hvalid. apply create_classifier_Ok in Hc as (w & _ & ->).
  destruct (predict_valid w fs path 0 Hvalid) as (_ & _ & _ & preds & _ & _ & _ & Hp & Hn & _);
    [lia|].
  by destruct preds.
Qed.

(** C4: on a path that is missing, an empty file, or a file the decoder
    rejects, [preprocess_image] fails with a [ValueError] whatever the decoder
    raised; the decoder's own exception is only carried along as the cause. *)
Theorem preprocess_image_uniform_error self fs path :
  fs !! path = None \/ fs !! path = Some [] \/
    (exists data e, fs !! path = Some data /\ decode_rgb data = Raise e) ->
  exists e,
    Image_open fs path = Raise e /\
    preprocess_image self fs path =
      Raise (PyExn ValueError ("Cannot process image: " +:+ exn_str e) (Some e)).
Proof.
  intros Hbad.
  assert (exists e, Image_open fs path = Raise e) as [e He].
  { unfold Image_open. destruct Hbad as [->|[->|(data & e & -> & He)]].
    - by eexists.
    - apply decode_rgb_empty.
    - by exists e. }
  exists e. split; [done|]. by apply preprocess_image_undecodable.
Qed.

(** C5: every entry of a Prediction returned by [predict] is labelled from the
    class index at its rank: with the label table's name when the index is
    below the table's length, with "Class_<index>" otherwise. *)
Theorem predict_labels c fs path (k : Z) preds :
  create_classifier = Ok c ->
  predict c fs path k = Ok preds ->
  exists top_prob top_class,
    top_predictions c fs path k = Ok (top_prob, top_class) /\
    forall i name confidence,
      preds !! i = Some (name, confidence) ->
      exists class_idx,
        top_class !! i = Some class_idx /\
        top_prob !! i = Some confidence /\
        (class_idx < length imagenet_labels -> imagenet_labels !! class_idx = Some name) /\
        (length imagenet_labels <= class_idx -> name = "Class_" +:+ pretty class_idx).
Proof.
  intros Hc Hp. apply create_classifier_Ok in Hc as (w & _ & ->).
  apply predict_Ok in Hp. unfold predict_body in Hp.
  apply bind_Ok in Hp as ([top_prob top_class] & Htop & Hr).
  exists top_prob, top_class. split; [done|]. intros i name confidence Hi.
  destruct (readable_Ok (loaded_classifier w) imagenet_labels _ _ _ _ eq_refl Hr)
    as [_ Hentries].
  destruct (Hentries _ _ Hi) as (idx & Hidx & Hconf & Hname). by exists idx.
Qed.

(** C6: a decodable picture becomes a tensor of shape (1, 3, 224, 224): the
    picture resized so that its shorter side is 256 (the other side scaled
    by the same ratio), centre-cropped to the 224x224 window that starts at
    (round((w-224)/2), round((h-224)/2)) of the resized picture, each band
    value v normalised to (v/255 - mean) / std in float32 arithmetic with the
    fixed mean and std of its channel, under a leading batch dimension of 1. *)
Theorem preprocess_image_shape c fs path img :
  create_classifier = Ok c ->
  Image_open fs path = Ok img -> 0 < im_width img -> 0 < im_height img ->
  exists resized t,
    Resize 256 img = Ok resized /\
    Nat.min (im_width resized) (im_height resized) = 256 /\
    (im_width resized, im_height resized) =
      (if im_width img <=? im_height img
       then (256, 256 * im_height img / im_width img)
       else (256 * im_width img / im_height img, 256)) /\
    im_pixel resized = interpolate img (im_width resized) (im_height resized) /\
    im_width (CenterCrop 224 resized) = 224 /\
    im_height (CenterCrop 224 resized) = 224 /\
    round_half (im_width resized - 224) + 224 <= im_width resized /\
    round_half (im_height resized - 224) + 224 <= im_height resized /\
    (forall x y band, x < 224 -> y < 224 ->
       im_pixel (CenterCrop 224 resized) x y band =
         im_pixel resized (round_half (im_width resized - 224) + x)
           (round_half (im_height resized - 224) + y) band) /\
    preprocess_image c fs path = Ok t /\
    shape t = [1; 3; 224; 224] /\
    forall ch y x,
      item_at t [0; ch; y; x] =
        float32_div
          (float32_sub
             (float32_div (inject_Z (im_pixel (CenterCrop 224 resized) x y ch)) 255%Q)
             (float32_of_decimal (nth ch [485 # 1000; 456 # 1000; 406 # 1000]%Q 0%Q)))
          (float32_of_decimal (nth ch [229 # 1000; 224 # 1000; 225 # 1000]%Q 1%Q)).
Proof.
  intros Hc Hopen Hw Hh. apply create_classifier_Ok in Hc as (w & _ & ->).
  destruct (preprocess_image_Ok (loaded_classifier w) fs path img eq_refl Hopen Hw Hh)
    as (resized & t & Hr & Hmin & Ht & Hshape & Hval).
  destruct (Resize_Ok 256 img Hw Hh) as (resized' & Hr' & _ & Hinterp).
  rewrite Hr in Hr'. injection Hr' as <-.
  destruct (CenterCrop_window img Hw Hh)
    as (resized' & Hr' & _ & _ & Hleft & Htop & _ & _ & _ & _ & Hpix).
  rewrite Hr in Hr'. injection Hr' as <-.
  exists resized, t. split; [done|]. split; [done|].
  split; [by apply Resize_size|]. split; [done|]. split; [done|]. split; [done|].
  split; [exact Hleft|]. split; [exact Htop|]. split; [exact Hpix|].
  split; [done|]. split; [done|]. exact Hval.
Qed.

(** C7: whenever something inside [predict] fails, [predict] fails with a
    [ValueError] whose message quotes the failure and whose [__context__] is
    the failure itself; for a file or decode error that failure is the
    [ValueError] of [preprocess_image], which in turn carries what the
    decoder raised. *)
Theorem predict_wraps_failure c fs path (k : Z) :
  create_classifier = Ok c ->
  (forall e, predict_body c fs path k = Raise e ->
     predict c fs path k =
       Raise (PyExn ValueError ("Prediction failed: " +:+ exn_str e) (Some e))) /\
  (forall e0, Image_open fs path = Raise e0 ->
     predict_body c fs path k =
       Raise (PyExn ValueError ("Cannot process image: " +:+ exn_str e0) (Some e0))) /\
  (forall x, predict c fs path k = Raise x ->
     exists e, predict_body c fs path k = Raise e /\ exn_cls x = ValueError /\
       exn_context x = Some e).
Proof.
  intros Hc. apply create_classifier_Ok in Hc as (w & _ & ->). split; [|split].
  - intros e. apply predict_Raise.
  - intros e0 He0. unfold predict_body, top_predictions.
    by rewrite (preprocess_image_undecodable _ _ _ _ He0).
  - intros x Hx. destruct (predict_body (loaded_classifier w) fs path k) as [p|e] eqn:Hb.
    + apply predict_Ok in Hb. congruence.
    + rewrite (predict_Raise _ _ _ _ _ Hb) in Hx. injection Hx as <-. by exists e.
Qed.

(** C10: a classifier that [create_classifier] returns reports
    [is_model_loaded() = True].  Construction returns exactly when the weights
    load, and then the model is the loaded network in evaluation mode;
    otherwise it raises what the loading raised. *)
Theorem created_classifier_is_loaded :
  (forall c, create_classifier = Ok c ->
     is_model_loaded c = true /\
     exists w, resnet50 = Ok w /\ model c = Some {| parameters := w; training := false |}) /\
  (forall e, create_classifier = Raise e -> resnet50 = Raise e).
Proof.
  split.
  - intros c Hc. apply create_classifier_Ok in Hc as (w & Hw & ->).
    split; [done|]. by exists w.
  - apply create_classifier_Raise.
Qed.

End ModelClaims.

(** ** The classifier on the red test picture *)

Definition classifier_lower_first :=
  @loaded_classifier solid_imaging torch_lower_first ().
Definition classifier_higher_first :=
  @loaded_classifier solid_imaging torch_higher_first ().

(** C1 at k = 50, past the 30 labels. *)
Lemma predict_returns_top_k_witness :
  exists preds,
    @predict solid_imaging torch_lower_first classifier_lower_first demo_fs "red.img" 50
      = Ok preds /\ Z.of_nat (length preds) = 50%Z.
Proof.
  apply (@predict_returns_top_k solid_imaging torch_lower_first).
  - reflexivity.
  - exact red_valid.
  - simpl. lia.
Defined.

(** C2 at k = 5. *)
Lemma predict_non_increasing_witness :
  exists preds,
    @predict solid_imaging torch_higher_first classifier_higher_first demo_fs "red.img" 5
      = Ok preds /\ non_increasing preds.
Proof.
  apply (@predict_non_increasing solid_imaging torch_higher_first).
  - reflexivity.
  - exact red_valid.
  - lia.
Defined.

(** C2 as stated fails: a [topk] that meets torch's contract and returns equal
    values by descending index puts class 999 before class 995 at the same
    confidence. *)
Lemma predict_ties_not_ascending :
  @create_classifier solid_imaging torch_higher_first = Ok classifier_higher_first /\
  @top_predictions solid_imaging torch_higher_first classifier_higher_first demo_fs "red.img" 2
    = Ok ([4 # 2500; 4 # 2500]%Q, [999; 995]) /\
  @predict solid_imaging torch_higher_first classifier_higher_first demo_fs "red.img" 2
    = Ok [("Class_999", 4 # 2500); ("Class_995", 4 # 2500)]%Q /\
  ~ ties_ascending [4 # 2500; 4 # 2500]%Q [999; 995].
Proof.
  split; [reflexivity|]. split; [vm_compute; reflexivity|].
  split; [vm_compute; reflexivity|].
  intros Hties.
  specialize (Hties 0 1 (4 # 2500)%Q (4 # 2500)%Q 999 995).
  simpl in Hties. specialize (Hties ltac:(lia) eq_refl eq_refl ltac:(reflexivity) eq_refl eq_refl).
  lia.
Qed.

(** C3 on the red picture. *)
Lemma predict_zero_is_empty_witness :
  @predict solid_imaging torch_lower_first classifier_lower_first demo_fs "red.img" 0 = Ok [].
Proof.
  apply (@predict_zero_is_empty solid_imaging torch_lower_first).
  - reflexivity.
  - exact red_valid.
Defined.

(** C3 as stated fails: with top_k = 0 [predict] returns normally, and what it
    returns is the empty list. *)
Lemma predict_zero_does_not_fail :
  @create_classifier solid_imaging torch_lower_first = Ok classifier_lower_first /\
  @predict solid_imaging torch_lower_first classifier_lower_first demo_fs "red.img" 0 = Ok [] /\
  ~ exists e,
      @predict solid_imaging torch_lower_first classifier_lower_first demo_fs "red.img" 0
        = Raise e.
Proof.
  assert (Hp : @predict solid_imaging torch_lower_first classifier_lower_first
                 demo_fs "red.img" 0 = Ok []) by (vm_compute; reflexivity).
  split; [reflexivity|]. split; [exact Hp|]. intros [e He]. congruence.
Qed.

(** C4 on a missing path, an empty file and a text file. *)
Lemma preprocess_image_uniform_error_witness :
  (exists e,
     @Image_open solid_imaging demo_fs "gone.jpg" = Raise e /\
     @preprocess_image solid_imaging torch_lower_first classifier_lower_first demo_fs "gone.jpg"
       = Raise (PyExn ValueError ("Cannot process image: " +:+ exn_str e) (Some e))) /\
  (exists e,
     @Image_open solid_imaging demo_fs "empty.jpg" = Raise e /\
     @preprocess_image solid_imaging torch_lower_first classifier_lower_first demo_fs "empty.jpg"
       = Raise (PyExn ValueError ("Cannot process image: " +:+ exn_str e) (Some e))) /\
  (exists e,
     @Image_open solid_imaging demo_fs "notes.txt" = Raise e /\
     @preprocess_image solid_imaging torch_lower_first classifier_lower_first demo_fs "notes.txt"
       = Raise (PyExn ValueError ("Cannot process image: " +:+ exn_str e) (Some e))).
Proof.
  split; [|split].
  - apply (@preprocess_image_uniform_error solid_imaging torch_lower_first).
    left. vm_compute. reflexivity.
  - apply (@preprocess_image_uniform_error solid_imaging torch_lower_first).
    right. left. vm_compute. reflexivity.
  - apply (@preprocess_image_uniform_error solid_imaging torch_lower_first).
    right. right. eexists _, _. split; vm_compute; reflexivity.
Defined.

(** C5 at k = 3 with ties broken upwards: ranks 0..2 are classes 999, 995 and
    991, all past the table. *)
Lemma predict_labels_witness :
  exists top_prob top_class,
    @top_predictions solid_imaging torch_higher_first classifier_higher_first demo_fs "red.img" 3
      = Ok (top_prob, top_class) /\
    forall i name confidence,
      [("Class_999", 4 # 2500); ("Class_995", 4 # 2500); ("Class_991", 4 # 2500)]%Q !! i
        = Some (name, confidence) ->
      exists class_idx,
        top_class !! i = Some class_idx /\
        top_prob !! i = Some confidence /\
        (class_idx < length imagenet_labels -> imagenet_labels !! class_idx = Some name) /\
        (length imagenet_labels <= class_idx -> name = "Class_" +:+ pretty class_idx).
Proof.
  apply (@predict_labels solid_imaging torch_higher_first).
  - reflexivity.
  - vm_compute. reflexivity.
Defined.

(** C6 on the solid red 100x100 picture. *)
Lemma preprocess_image_shape_witness :
  exists t,
    @preprocess_image solid_imaging torch_lower_first classifier_lower_first demo_fs "red.img"
      = Ok t /\ shape t = [1; 3; 224; 224].
Proof.
  destruct (@preprocess_image_shape solid_imaging torch_lower_first
              classifier_lower_first demo_fs "red.img"
              {| im_width := 100; im_height := 100;
                 im_pixel := fun _ _ band =>
                   Z.of_nat (Byte.to_nat (nth band [Byte.xff; Byte.x00; Byte.x00] Byte.x00)) |})
    as (resized & t & _ & _ & _ & _ & _ & _ & _ & _ & _ & Ht & Hshape & _).
  - reflexivity.
  - vm_compute. reflexivity.
  - simpl. lia.
  - simpl. lia.
  - by exists t.
Defined.

(** C7 on a missing file. *)
Lemma predict_wraps_failure_witness :
  @predict solid_imaging torch_lower_first classifier_lower_first demo_fs "gone.jpg" 5
    = Raise
        (PyExn ValueError
           "Prediction failed: Cannot process image: [Errno 2] No such file or directory: 'gone.jpg'"
           (Some
              (PyExn ValueError
                 "Cannot process image: [Errno 2] No such file or directory: 'gone.jpg'"
                 (Some
                    (PyExn FileNotFoundError
                       "[Errno 2] No such file or directory: 'gone.jpg'" None))))).
Proof.
  destruct (@predict_wraps_failure solid_imaging torch_lower_first
              classifier_lower_first demo_fs "gone.jpg" 5 eq_refl) as (Hwrap & Hfile & _).
  rewrite (Hwrap _ (Hfile _ eq_refl)). reflexivity.
Defined.

(** C10 with the weights at hand. *)
Lemma created_classifier_is_loaded_witness :
  is_model_loaded classifier_lower_first = true.
Proof.
  apply (proj1 (@created_classifier_is_loaded solid_imaging torch_lower_first)).
  reflexivity.
Defined.

(** ** The front end: claims *)

(** Where a worker can stand once the model load has failed. *)
Definition failed_pc (p : pc) : bool :=
  match p with
  | LoadAfterError | LoadLeaveExcept | Finished | Uncaught _ => true
  | _ => false
  end.

Section GUIClaims.
Context `{Imaging} `{Torch}.

(** The load is over and has left no classifier: [self.classifier] is [None]
    and no worker is loading or classifying. *)
Definition model_failed (a : App) : Prop :=
  classifier a = None /\ Forall (fun t => failed_pc (th_pc t) = true) (threads a).

(** A lambda that reads [e] after the [except] clause has ended raises
    [NameError] instead of calling its handler. *)
Lemma lambda_after_except (a : App) tid t :
  threads a !! tid = Some t -> var_e t = None ->
  exists err,
    exn_cls err = NameError /\
    run_callback (lambda_model_error tid) a = report_callback_exception err a /\
    run_callback (lambda_classification_error tid) a = report_callback_exception err a.
Proof.
  intros Ht He. unfold run_callback. rewrite Ht. simpl. rewrite He. simpl.
  eexists. split; [|split; reflexivity]. reflexivity.
Qed.

Lemma run_callback_keeps f (a : App) :
  classifier (run_callback f a) = classifier a /\
  threads (run_callback f a) = threads a.
Proof.
  unfold run_callback. destruct f; simpl; repeat case_match; done.
Qed.

Lemma select_image_keeps fs file_path (a : App) :
  classifier (select_image fs file_path a) = classifier a /\
  threads (select_image fs file_path a) = threads a.
Proof.
  unfold select_image, display_image. repeat case_match; done.
Qed.

Lemma classify_image_rejected (a : App) :
  classifier a = None ->
  classify_image a =
    show (if truthy (current_image_path a)
          then showerror "Model Error" "Model is not loaded."
          else showwarning "No Image" "Please select an image first.") a.
Proof.
  intros Hc. unfold classify_image. rewrite Hc.
  by destruct (truthy (current_image_path a)).
Qed.

Lemma select_image_selects fs file_path (a : App) :
  file_path <> "" ->
  current_image_path (select_image fs file_path a) = Some file_path /\
  predict_button (select_image fs file_path a) = NORMAL.
Proof.
  intros Hne. apply String.eqb_neq in Hne. unfold select_image, display_image.
  rewrite Hne. by repeat case_match.
Qed.

Lemma step_model_failed fs act (a : App) :
  model_failed a ->
  model_failed (step fs act a) /\ length (threads (step fs act a)) = length (threads a).
Proof.
  intros [Hc Hts]. destruct act as [tid| |file_path|]; simpl.
  - unfold worker_step. destruct (threads a !! tid) as [t|] eqn:Ht; [|done].
    pose proof (Forall_lookup_1 _ _ _ _ Hts Ht) as Hpc. simpl in Hpc.
    destruct (th_pc t) eqn:Hp; try done; unfold leave_except, update_thread, model_failed; simpl;
      rewrite ?length_insert; (split; [split; [done|]|done]);
      by apply Forall_insert.
  - unfold mainloop_step. destruct (after_queue a) as [|f rest]; [done|].
    destruct (run_callback_keeps f (set_after_queue rest a)) as [Hc' Ht'].
    unfold model_failed. by rewrite Hc', Ht'.
  - destruct (select_image_keeps fs file_path a) as [Hc' Ht'].
    unfold model_failed. by rewrite Hc', Ht'.
  - change (model_failed (classify_image a) /\
            length (threads (classify_image a)) = length (threads a)).
    by rewrite (classify_image_rejected a Hc).
Qed.

(** C9, as amended: once the load has failed, whatever the user and the
    threads do next, the classifier stays unset and no worker is ever started
    (so no classification runs).  A classify request only shows a dialog:
    the 'No Image' warning while no file is selected, the 'Model is not
    loaded.' error once one is.  The classify button is not kept disabled:
    selecting a file enables it, and the request then made shows the
    'Model is not loaded.' error. *)
Theorem no_classification_after_failed_load fs schedule (a : App) :
  model_failed a ->
  let a' := run fs schedule a in
  model_failed a' /\
  length (threads a') = length (threads a) /\
  (current_image_path a' = None \/ current_image_path a' = Some "" ->
   classify_image a' =
     show (showwarning "No Image" "Please select an image first.") a') /\
  (forall file_path,
     current_image_path a' = Some file_path -> file_path <> "" ->
     classify_image a' = show (showerror "Model Error" "Model is not loaded.") a') /\
  (forall file_path, file_path <> "" ->
     let b := select_image fs file_path a' in
     predict_button b = NORMAL /\
     classify_image b = show (showerror "Model Error" "Model is not loaded.") b).
Proof.
  cbv zeta. revert a. induction schedule as [|act schedule IH]; intros a Ha.
  - change (run fs [] a) with a.
    split; [done|]. split; [done|]. destruct Ha as [Hc Hts].
    split; [|split].
    + intros Hp. rewrite (classify_image_rejected a Hc).
      by destruct Hp as [->| ->].
    + intros file_path Hp Hne. rewrite (classify_image_rejected a Hc), Hp.
      apply String.eqb_neq in Hne. simpl. by rewrite Hne.
    + intros file_path Hne.
      destruct (select_image_selects fs file_path a Hne) as [Hp Hb].
      split; [done|]. rewrite classify_image_rejected, Hp.
      * apply String.eqb_neq in Hne. simpl. by rewrite Hne.
      * by destruct (select_image_keeps fs file_path a) as [-> _].
  - change (run fs (act :: schedule) a) with (run fs schedule (step fs act a)).
    destruct (step_model_failed fs act a Ha) as [Ha' Hlen].
    destruct (IH _ Ha') as (Hf & Hl & Hd). split; [done|]. split; [|done].
    by rewrite Hl.
Qed.

End GUIClaims.

(** The session with the weights out of reach: the worker fails, the event
    loop shows the error while [e] is still bound, the worker ends. *)
Definition failed_session : @App torch_offline :=
  @run solid_imaging torch_offline demo_fs
    [Worker 0; Worker 0; Worker 0; MainLoop; Worker 0] gui_init.

(** C9 as stated fails: in the failed session the classify button is
    disabled, and selecting an image enables it. *)
Lemma select_image_enables_classify :
  @model_failed torch_offline failed_session /\
  status_label failed_session = ("Model loading failed", "red") /\
  predict_button failed_session = DISABLED /\
  predict_button (@step solid_imaging torch_offline demo_fs (SelectImage "red.img") failed_session)
    = NORMAL.
Proof.
  split; [|by vm_compute].
  split; [reflexivity|]. vm_compute. repeat constructor.
Qed.

(** C9 from the failed session: select, classify, let the event loop run. *)
Lemma no_classification_after_failed_load_witness :
  let a := @run solid_imaging torch_offline demo_fs
             [SelectImage "red.img"; ClassifyImage; MainLoop] failed_session in
  @model_failed torch_offline a /\
  length (threads a) = length (threads failed_session) /\
  classify_image a = show (showerror "Model Error" "Model is not loaded.") a /\
  dialogs a =
    [showerror "Model Error"
       "Failed to load model: <urlopen error [Errno -3] Temporary failure in name resolution>";
     showerror "Model Error" "Model is not loaded."] /\
  predict_button (@select_image solid_imaging torch_offline demo_fs "notes.txt" a) = NORMAL.
Proof.
  destruct (@no_classification_after_failed_load solid_imaging torch_offline demo_fs
              [SelectImage "red.img"; ClassifyImage; MainLoop] failed_session)
    as (Hf & Hl & _ & Herr & Hsel).
  - split; [reflexivity|]. vm_compute. repeat constructor.
  - split; [exact Hf|]. split; [exact Hl|].
    split; [apply (Herr "red.img"); [by vm_compute|discriminate]|].
    split; [by vm_compute|]. by apply Hsel.
Defined.

(** Running a schedule one action at a time, innermost first. *)
Ltac gui_unfold :=
  cbv [step worker_step mainloop_step run_callback select_image classify_image
       truthy negb
       display_image update_thread enter_except leave_except at_pc root_after
       start_thread set_classifier set_selection set_image_label set_results
       set_controls show set_after_queue set_threads report_callback_exception
       _on_model_loaded _on_model_error _on_classification_start
       _on_classification_complete _on_classification_error
       clear_results display_results free_variable raise call_predict
       gui_init load_model setup_ui id];
  cbn [classifier current_image_path file_label predict_button progress_running
       status_label results_text image_label dialogs after_queue threads
       callback_errors th_pc var_e var_predictions
       lookup list_lookup insert list_insert app default from_option].

Ltac next_step tac :=
  match goal with
  | |- context [step ?fs ?act ?a] =>
      lazymatch a with
      | context [step] => fail
      | _ => idtac
      end;
      let E := fresh "E" in
      eassert (E : step fs act a = _) by (gui_unfold; tac; reflexivity);
      rewrite E; clear E
  end.

Section DeliveryClaims.
Context `{Imaging} `{Torch}.

(** C8 fails on the code: when the worker leaves its [except] clause before
    the event loop runs the lambda, [e] is gone and the handler is never
    called.  For a failed load no dialog appears and the status stays
    "Loading model..." with the progress bar running; for a failed
    classification no dialog appears, the status stays "Classifying..." and
    the button stays disabled.  In both sessions Tk reports a [NameError]
    from the callback. *)
Theorem background_error_not_displayed fs :
  (forall e, resnet50 = Raise e ->
     let a := run fs [Worker 0; Worker 0; Worker 0; Worker 0; MainLoop] gui_init in
     th_pc <$> threads a = [Finished] /\ after_queue a = [] /\
     dialogs a = [] /\
     status_label a = ("Loading model...", "blue") /\
     progress_running a = true /\
     exn_cls <$> callback_errors a = [NameError]) /\
  (forall w file_path x,
     resnet50 = Ok w -> file_path <> "" ->
     predict (loaded_classifier w) fs file_path 5 = Raise x ->
     let a := run fs [Worker 0; Worker 0; Worker 0; MainLoop;
                      SelectImage file_path; ClassifyImage;
                      Worker 1; MainLoop; Worker 1; Worker 1; Worker 1; MainLoop]
                gui_init in
     th_pc <$> threads a = [Finished; Finished] /\ after_queue a = [] /\
     dialogs a = [] /\
     status_label a = ("Classifying...", "blue") /\
     progress_running a = true /\
     predict_button a = DISABLED /\
     exn_cls <$> callback_errors a = [NameError]).
Proof.
  split.
  - intros e He. pose proof (create_classifier_fails e He) as Hc.
    pose proof (resnet50_Exception e He) as Hexc.
    unfold run; cbn [foldl].
    next_step idtac.
    next_step ltac:(rewrite Hc; gui_unfold; rewrite Hexc; gui_unfold).
    do 3 next_step idtac.
    repeat split; reflexivity.
  - intros w file_path x Hw Hpath Hx.
    pose proof (create_classifier_loaded w Hw) as Hc.
    pose proof (predict_Raise_ValueError _ _ _ _ _ Hx) as Hcls.
    apply String.eqb_neq in Hpath.
    unfold run; cbn [foldl].
    next_step idtac.
    next_step ltac:(rewrite Hc; gui_unfold).
    do 2 next_step idtac.
    destruct (Image_open fs file_path) as [img|ex] eqn:Hopen.
    + next_step ltac:(rewrite Hpath, Hopen; gui_unfold).
      next_step ltac:(rewrite Hpath; gui_unfold).
      do 2 next_step idtac.
      next_step ltac:(rewrite Hx; gui_unfold; rewrite Hcls; cbn [is_Exception]).
      do 3 next_step idtac.
      repeat split; reflexivity.
    + next_step ltac:(rewrite Hpath, Hopen, (Image_open_Exception _ _ _ Hopen); gui_unfold).
      next_step ltac:(rewrite Hpath; gui_unfold).
      do 2 next_step idtac.
      next_step ltac:(rewrite Hx; gui_unfold; rewrite Hcls; cbn [is_Exception]).
      do 3 next_step idtac.
      repeat split; reflexivity.
Qed.

(** The same schedules where the worker is late: the event loop runs the
    lambda while [e] is still bound, and the dialog appears. *)
Lemma background_error_displayed_in_time fs e :
  resnet50 = Raise e ->
  let a := run fs [Worker 0; Worker 0; Worker 0; MainLoop; Worker 0] gui_init in
  dialogs a = [showerror "Model Error" ("Failed to load model: " +:+ exn_str e)] /\
  status_label a = ("Model loading failed", "red") /\
  progress_running a = false /\
  callback_errors a = [].
Proof.
  intros He. pose proof (create_classifier_fails e He) as Hc.
  pose proof (resnet50_Exception e He) as Hexc.
  unfold run; cbn [foldl].
  next_step idtac.
  next_step ltac:(rewrite Hc; gui_unfold; rewrite Hexc; gui_unfold).
  do 3 next_step idtac.
  repeat split; reflexivity.
Qed.

End DeliveryClaims.

(** C8 on the two sessions: the weights out of reach, and a text file picked
    as the image. *)
Lemma background_error_not_displayed_witness :
  (let a := @run solid_imaging torch_offline demo_fs
              [Worker 0; Worker 0; Worker 0; Worker 0; MainLoop] gui_init in
   th_pc <$> threads a = [Finished] /\ after_queue a = [] /\
   dialogs a = [] /\
   status_label a = ("Loading model...", "blue") /\
   progress_running a = true /\
   exn_cls <$> callback_errors a = [NameError]) /\
  (let a := @run solid_imaging torch_lower_first demo_fs
              [Worker 0; Worker 0; Worker 0; MainLoop;
               SelectImage "notes.txt"; ClassifyImage;
               Worker 1; MainLoop; Worker 1; Worker 1; Worker 1; MainLoop] gui_init in
   th_pc <$> threads a = [Finished; Finished] /\ after_queue a = [] /\
   dialogs a = [] /\
   status_label a = ("Classifying...", "blue") /\
   progress_running a = true /\
   predict_button a = DISABLED /\
   exn_cls <$> callback_errors a = [NameError]).
Proof.
  split.
  - apply (proj1 (@background_error_not_displayed solid_imaging torch_offline demo_fs)
             weights_unavailable).
    reflexivity.
  - eapply (proj2 (@background_error_not_displayed solid_imaging torch_lower_first demo_fs)
             () "notes.txt").
    + reflexivity.
    + discriminate.
    + vm_compute. reflexivity.
Defined.

(** * More of the classifier *)

(** Lines 120-125 of [predict]: the probabilities of all classes. *)
Definition probabilities `{Imaging} `{Torch} (self : ResNet50Classifier)
    (fs : gmap string (list Byte.byte)) (image_path : string) : result (list Q) :=
  image_tensor ← preprocess_image self fs image_path;
  net ← not_None "callable" (model self);
  outputs ← forward net image_tensor;
  Ok (softmax outputs).

Section MoreOfTheClassifier.
Context `{Imaging} `{Torch}.

Lemma top_predictions_probabilities self fs path k :
  top_predictions self fs path k = probabilities self fs path ≫= fun p => topk p k.
Proof.
  unfold top_predictions, probabilities.
  destruct (preprocess_image self fs path) as [t|e]; simpl; [|done].
  destruct (not_None "callable" (model self)) as [net|e]; simpl; [|done].
  by destruct (forward net t).
Qed.

Lemma probabilities_valid w fs path :
  valid_image fs path ->
  exists probs, probabilities (loaded_classifier w) fs path = Ok probs /\ length probs = 1000.
Proof.
  intros (img & Hopen & Hw & Hh).
  destruct (preprocess_image_Ok (loaded_classifier w) fs path img eq_refl Hopen Hw Hh)
    as (resized & t & _ & _ & Ht & Hshape & _).
  destruct (forward_scores {| parameters := w; training := false |} t Hshape)
    as (scores & Hf & Hlen).
  exists (softmax scores). unfold probabilities. rewrite Ht. simpl. rewrite Hf. simpl.
  split; [done|]. by rewrite softmax_length.
Qed.

(** On a valid image [predict] returns exactly for top_k from 0 to 1000;
    outside that range it raises a [ValueError] whose cause is the
    [RuntimeError] of [torch.topk]. *)
Theorem predict_succeeds_iff_in_range c fs path (k : Z) :
  create_classifier = Ok c ->
  valid_image fs path ->
  ((exists preds, predict c fs path k = Ok preds) <-> (0 <= k <= 1000)%Z) /\
  (~ (0 <= k <= 1000)%Z ->
   exists cause,
     predict c fs path k =
       Raise (PyExn ValueError ("Prediction failed: " +:+ exn_str cause) (Some cause)) /\
     exn_cls cause = RuntimeError).
Proof.
  intros Hc Hvalid. apply create_classifier_Ok in Hc as (w & _ & ->).
  assert (Hout : ~ (0 <= k <= 1000)%Z ->
    exists cause,
      predict (loaded_classifier w) fs path k =
        Raise (PyExn ValueError ("Prediction failed: " +:+ exn_str cause) (Some cause)) /\
      exn_cls cause = RuntimeError).
  { intros Hk. destruct (probabilities_valid w fs path Hvalid) as (probs & Hp & Hlen).
    destruct (topk_out_of_range probs k) as (cause & Htop & Hcls); [lia|].
    exists cause. split; [|done]. apply predict_Raise.
    unfold predict_body. rewrite top_predictions_probabilities, Hp. simpl. by rewrite Htop. }
  split; [|done]. split.
  - intros [preds Hp]. destruct (decide (0 <= k <= 1000)%Z) as [|Hk]; [done|].
    destruct (Hout Hk) as (cause & Hr & _). congruence.
  - intros Hk. destruct (predict_valid w fs path k Hvalid Hk)
      as (_ & _ & _ & preds & _ & _ & _ & Hp & _). by exists preds.
Qed.

(** Each confidence of a Prediction is the probability of the class at its
    rank, and no class left out of the Prediction has a larger probability
    than a class in it. *)
Theorem predict_takes_the_largest c fs path (k : Z) :
  create_classifier = Ok c ->
  valid_image fs path ->
  (0 <= k <= 1000)%Z ->
  exists probs preds top_prob top_class,
    probabilities c fs path = Ok probs /\
    top_predictions c fs path k = Ok (top_prob, top_class) /\
    predict c fs path k = Ok preds /\
    (forall i entry, preds !! i = Some entry ->
       exists class_idx, top_class !! i = Some class_idx /\
         probs !! class_idx = Some entry.2) /\
    (forall j p entry, probs !! j = Some p -> j ∉ top_class -> entry ∈ preds ->
       (p <= entry.2)%Q).
Proof.
  intros Hc Hvalid Hk. apply create_classifier_Ok in Hc as (w & _ & ->).
  destruct (probabilities_valid w fs path Hvalid) as (probs & Hp & Hlen).
  destruct (predict_valid w fs path k Hvalid Hk)
    as (vals & idxs & probs' & preds & Htop & _ & _ & Hpred & _ & Hentries).
  assert (Hspec : is_topk probs (Z.to_nat k) vals idxs).
  { rewrite top_predictions_probabilities, Hp in Htop. simpl in Htop.
    destruct (topk_in_range probs k) as (vals' & idxs' & Htop' & Hspec); [lia|].
    congruence. }
  exists probs, preds, vals, idxs. repeat split; try done.
  - intros i entry Hi. destruct (Hentries _ _ Hi) as (idx & Hidx & Hval & _).
    exists idx. split; [done|]. by rewrite <- (topk_gather _ _ _ _ Hspec i idx Hidx).
  - intros j p entry Hj Hnot Hin. apply list_elem_of_lookup in Hin as [i Hi].
    destruct (Hentries _ _ Hi) as (idx & Hidx & Hval & _).
    eapply (topk_largest _ _ _ _ Hspec j p); eauto.
    by eapply list_elem_of_lookup_2.
Qed.

End MoreOfTheClassifier.

(** ** Labels *)

Lemma imagenet_labels_NoDup : NoDup imagenet_labels.
Proof. apply (bool_decide_unpack _). by vm_compute. Qed.

Lemma imagenet_labels_not_placeholder name :
  name ∈ imagenet_labels -> String.prefix "Class_" name = false.
Proof.
  assert (Hall : Forall (fun l => String.prefix "Class_" l = false) imagenet_labels).
  { apply (bool_decide_unpack _). by vm_compute. }
  rewrite Forall_forall in Hall. apply Hall.
Qed.

Lemma placeholder_prefix (idx : nat) : String.prefix "Class_" ("Class_" +:+ pretty idx) = true.
Proof. simpl. by destruct (pretty idx). Qed.

(** Two class indices with the same label are the same index. *)
Lemma names_class_inj (idx1 idx2 : nat) name :
  names_class imagenet_labels idx1 name ->
  names_class imagenet_labels idx2 name ->
  idx1 = idx2.
Proof.
  intros [Hin1 Hout1] [Hin2 Hout2].
  destruct (decide (idx1 < length imagenet_labels)) as [H1|H1],
    (decide (idx2 < length imagenet_labels)) as [H2|H2].
  - eapply NoDup_lookup; [apply imagenet_labels_NoDup|eauto..].
  - specialize (Hin1 H1). specialize (Hout2 ltac:(lia)). subst name.
    apply list_elem_of_lookup_2, imagenet_labels_not_placeholder in Hin1.
    by rewrite placeholder_prefix in Hin1.
  - specialize (Hin2 H2). specialize (Hout1 ltac:(lia)). subst name.
    apply list_elem_of_lookup_2, imagenet_labels_not_placeholder in Hin2.
    by rewrite placeholder_prefix in Hin2.
  - specialize (Hout1 ltac:(lia)). specialize (Hout2 ltac:(lia)). subst name.
    simpl in Hout2. simplify_eq. by apply (inj pretty).
Qed.

Section DistinctLabels.
Context `{Imaging} `{Torch}.

(** The labels of a Prediction are pairwise distinct: no class, and no name,
    appears twice. *)
Theorem predict_labels_distinct c fs path (k : Z) preds :
  create_classifier = Ok c ->
  predict c fs path k = Ok preds ->
  NoDup preds.*1.
Proof.
  intros Hc Hp. apply create_classifier_Ok in Hc as (w & _ & ->).
  apply predict_Ok in Hp. unfold predict_body in Hp.
  apply bind_Ok in Hp as ([top_prob top_class] & Htop & Hr).
  destruct (top_predictions_Ok _ _ _ _ _ _ Htop) as [probs Hspec].
  destruct (readable_Ok (loaded_classifier w) imagenet_labels _ _ _ _ eq_refl Hr)
    as [_ Hentries].
  apply NoDup_alt. intros i j name Hi Hj.
  rewrite list_lookup_fmap in Hi, Hj.
  destruct (preds !! i) as [[n1 c1]|] eqn:Ei; simplify_eq/=.
  destruct (preds !! j) as [[n2 c2]|] eqn:Ej; simplify_eq/=.
  destruct (Hentries _ _ Ei) as (idx1 & Hidx1 & _ & Hn1).
  destruct (Hentries _ _ Ej) as (idx2 & Hidx2 & _ & Hn2).
  simpl in *. pose proof (names_class_inj _ _ _ Hn1 Hn2) as ->.
  eapply NoDup_lookup; [apply (topk_NoDup _ _ _ _ Hspec)|eauto..].
Qed.

End DistinctLabels.

(** The five best classes of the red picture have five different names. *)
Lemma predict_labels_distinct_witness :
  NoDup [("tiger shark", 4 # 2500); ("cock", 4 # 2500); ("goldfinch", 4 # 2500);
         ("robin", 4 # 2500); ("chickadee", 4 # 2500)]%Q.*1.
Proof.
  apply (@predict_labels_distinct solid_imaging torch_lower_first
           classifier_lower_first demo_fs "red.img" 5).
  - reflexivity.
  - vm_compute. reflexivity.
Defined.

(** ** The preprocessing pipeline *)

Section Pipeline.
Context `{Imaging}.

(** After [Resize(256)] both sides are at least 256, so [CenterCrop(224)]
    never pads: the crop is a 224x224 window of the resized picture, inside
    it, with margins that differ by at most one pixel. *)
Theorem crop_is_a_centred_window img :
  0 < im_width img -> 0 < im_height img ->
  exists resized,
    Resize 256 img = Ok resized /\
    256 <= im_width resized /\ 256 <= im_height resized /\
    let left := round_half (im_width resized - 224) in
    let top := round_half (im_height resized - 224) in
    left + 224 <= im_width resized /\
    top + 224 <= im_height resized /\
    left <= (im_width resized - 224 - left) + 1 /\
    im_width resized - 224 - left <= left + 1 /\
    top <= (im_height resized - 224 - top) + 1 /\
    im_height resized - 224 - top <= top + 1 /\
    forall x y band, x < 224 -> y < 224 ->
      im_pixel (CenterCrop 224 resized) x y band = im_pixel resized (left + x) (top + y) band.
Proof. apply CenterCrop_window. Qed.

End Pipeline.

(** ** The range of the normalised values *)

(** How far a float32 result may be from the exact one: within one part in a
    million of it, or within a millionth where the exact result is close to
    zero.  IEEE rounding to nearest is within 2^-24 of the exact result (or
    within 2^-150 of it in the subnormal range); the looser bound also covers
    a decimal that passes through a Python float, and a division done as a
    multiplication by the reciprocal. *)
Definition accurate (exact result : Q) : Prop :=
  (Qabs (result - exact) <= (1 # 1000000) * Qabs exact + (1 # 1000000))%Q.

(** The accuracy of the float32 operations where no overflow occurs. *)
Class Float32Accuracy `{Imaging} := {
  float32_of_decimal_accurate :
    forall x, (Qabs x <= 1000)%Q -> accurate x (float32_of_decimal x);
  float32_sub_accurate :
    forall a b, (Qabs (a - b) <= 1000)%Q -> accurate (a - b)%Q (float32_sub a b);
  float32_div_accurate :
    forall a b, ~ (b == 0)%Q -> (Qabs (a / b) <= 1000)%Q ->
      accurate (a / b)%Q (float32_div a b);
}.

Lemma exact_accurate x : accurate x x.
Proof.
  unfold accurate. assert (E : (x - x == 0)%Q) by ring. rewrite E.
  pose proof (Qabs_nonneg x) as Hnn. change (Qabs 0) with 0%Q.
  set (z := Qabs x) in *. clearbody z. lra.
Qed.

#[global] Instance solid_imaging_accuracy : @Float32Accuracy solid_imaging.
Proof. split; intros; apply exact_accurate. Qed.

(** An accurate result of a value between [lo] and [hi], both within
    [-3, 3], lies between [lo - 4/10^6] and [hi + 4/10^6]. *)
Lemma accurate_between exact result lo hi :
  accurate exact result ->
  (- 3 <= lo)%Q -> (hi <= 3)%Q -> (lo <= exact <= hi)%Q ->
  (lo - (4 # 1000000) <= result <= hi + (4 # 1000000))%Q.
Proof.
  unfold accurate. intros Hacc Hlo Hhi [He1 He2].
  assert (Habs : (Qabs exact <= 3)%Q) by (apply Qabs_Qle_condition; lra).
  pose proof (Qabs_nonneg exact) as Hnn.
  apply Qabs_Qle_condition in Hacc as [Ha1 Ha2].
  set (z := Qabs exact) in *. clearbody z. lra.
Qed.

Lemma within_1000 x : (- 3 <= x <= 3)%Q -> (Qabs x <= 1000)%Q.
Proof. intros Hx. apply Qabs_Qle_condition. lra. Qed.

Section Normalisation.
Context `{Float32Accuracy}.

(** The normalised value of a band between 0 and 255, per channel. *)
Lemma normalized_bounds v ch :
  (0 <= v <= 255)%Z -> ch < 3 ->
  (- (212 # 100) <= normalized v ch <= 265 # 100)%Q.
Proof using Type*.
  intros [Hv0 Hv1] Hch. unfold normalized.
  assert (Hq0 : (0 <= inject_Z v)%Q) by (unfold Qle; simpl; lia).
  assert (Hq1 : (inject_Z v <= 255)%Q) by (unfold Qle; simpl; lia).
  set (q := inject_Z v) in *. clearbody q.
  assert (Hu : (0 <= q / 255 <= 1)%Q).
  { split; [apply Qle_shift_div_l|apply Qle_shift_div_r]; lra. }
  assert (Hscaled : (0 - (4 # 1000000) <= float32_div q 255 <= 1 + (4 # 1000000))%Q).
  { apply (accurate_between (q / 255)); [|lra..].
    apply float32_div_accurate; [lra|]. apply within_1000. lra. }
  set (u := float32_div q 255) in *. clearbody u. clear Hu Hq0 Hq1 q.
  destruct ch as [|[|[|ch]]]; [| | |lia]; cbn [nth imagenet_mean imagenet_std].
  all: match goal with
       | |- context [float32_sub _ (float32_of_decimal ?m)] =>
           assert (Hm : (m - (4 # 1000000) <= float32_of_decimal m <= m + (4 # 1000000))%Q)
             by (apply (accurate_between m); [|lra..];
                 apply float32_of_decimal_accurate, within_1000; lra);
           set (fm := float32_of_decimal m) in *; clearbody fm
       end.
  all: assert (Hs : (u - fm - (4 # 1000000) <= float32_sub u fm
                     <= u - fm + (4 # 1000000))%Q)
         by (apply (accurate_between (u - fm)); [|lra..];
             apply float32_sub_accurate, within_1000; lra);
       set (s := float32_sub u fm) in *; clearbody s.
  all: match goal with
       | |- context [float32_div _ (float32_of_decimal ?d)] =>
           assert (Hd : (d - (4 # 1000000) <= float32_of_decimal d <= d + (4 # 1000000))%Q)
             by (apply (accurate_between d); [|lra..];
                 apply float32_of_decimal_accurate, within_1000; lra);
           set (fd := float32_of_decimal d) in *; clearbody fd
       end.
  all: assert (He : (- (2119 # 1000) <= s / fd <= 2645 # 1000)%Q)
         by (split; [apply Qle_shift_div_l|apply Qle_shift_div_r]; lra).
  all: assert (Hr : (- (2119 # 1000) - (4 # 1000000) <= float32_div s fd
                     <= (2645 # 1000) + (4 # 1000000))%Q)
         by (apply (accurate_between (s / fd)); [|lra..];
             apply float32_div_accurate; [lra|apply within_1000; lra]).
  all: lra.
Qed.

(** When resampling keeps the band values within 0..255 and the float32
    operations are accurate to one part in a million, every entry of the
    preprocessed batch lies between -2.12 and 2.65. *)
Theorem preprocessed_values_bounded `{Torch} c fs path img t :
  create_classifier = Ok c ->
  Image_open fs path = Ok img -> 0 < im_width img -> 0 < im_height img ->
  (forall w h x y band, (0 <= interpolate img w h x y band <= 255)%Z) ->
  preprocess_image c fs path = Ok t ->
  forall ch y x, ch < 3 -> x < 224 -> y < 224 ->
    let v := item_at t [0; ch; y; x] in
    (- (212 # 100) <= v <= 265 # 100)%Q.
Proof using Type*.
  intros Hc Hopen Hw Hh Hrange Ht ch y x Hch Hx Hy. cbv zeta.
  apply create_classifier_Ok in Hc as (w & _ & ->).
  destruct (preprocess_image_Ok (loaded_classifier w) fs path img eq_refl Hopen Hw Hh)
    as (resized & t' & Hr & _ & Ht' & _ & Hval).
  rewrite Ht in Ht'. injection Ht' as <-. rewrite Hval.
  destruct (CenterCrop_window img Hw Hh)
    as (resized' & Hr' & _ & _ & _ & _ & _ & _ & _ & _ & Hpix).
  rewrite Hr in Hr'. injection Hr' as <-. rewrite (Hpix _ _ _ Hx Hy).
  destruct (Resize_Ok 256 img Hw Hh) as (resized'' & Hr'' & _ & Hinterp).
  rewrite Hr in Hr''. injection Hr'' as <-. rewrite Hinterp.
  by apply normalized_bounds.
Qed.

End Normalisation.

(** The bounds on the red test picture. *)
Lemma preprocessed_values_bounded_witness :
  exists t,
    @preprocess_image solid_imaging torch_lower_first classifier_lower_first
      demo_fs "red.img" = Ok t /\
    let v := item_at t [0; 0; 0; 0] in
    (- (212 # 100) <= v <= 265 # 100)%Q.
Proof.
  set (red := {| im_width := 100; im_height := 100;
                 im_pixel := fun _ _ band =>
                   Z.of_nat (Byte.to_nat (nth band [Byte.xff; Byte.x00; Byte.x00] Byte.x00)) |}).
  assert (Hopen : @Image_open solid_imaging demo_fs "red.img" = Ok red)
    by (vm_compute; reflexivity).
  assert (Hrange : forall w h x y band,
            (0 <= @interpolate solid_imaging red w h x y band <= 255)%Z).
  { intros w h x y band. unfold interpolate, solid_imaging, nearest, red. cbn [im_pixel].
    destruct band as [|[|[|[|band]]]]; vm_compute; split; intros Hgt; discriminate Hgt. }
  destruct (@preprocess_image_Ok solid_imaging torch_lower_first classifier_lower_first
              demo_fs "red.img" red eq_refl Hopen ltac:(simpl; lia) ltac:(simpl; lia))
    as (resized & t & _ & _ & Ht & _).
  exists t. split; [exact Ht|].
  apply (@preprocessed_values_bounded solid_imaging solid_imaging_accuracy
           torch_lower_first classifier_lower_first demo_fs "red.img" red t eq_refl Hopen
           ltac:(simpl; lia) ltac:(simpl; lia) Hrange Ht 0 0 0); lia.
Defined.

(** * More of the front end *)

(** The statements of [load_in_background]. *)
Definition load_pc (p : pc) : bool :=
  match p with
  | LoadProgressStart | LoadCreateClassifier | LoadAfterLoaded
  | LoadAfterError | LoadLeaveExcept => true
  | _ => false
  end.

(** The statements of [classify_in_background]. *)
Definition classify_pc (p : pc) : bool :=
  match p with
  | ClassifyAfterStart | ClassifyPredict | ClassifyAfterComplete
  | ClassifyAfterError | ClassifyLeaveExcept => true
  | _ => false
  end.

(** The statements up to the assignment of [self.classifier]. *)
Definition before_create (p : pc) : bool :=
  match p with
  | LoadProgressStart | LoadCreateClassifier => true
  | _ => false
  end.

Definition uncaught (p : pc) : bool :=
  match p with
  | Uncaught _ => true
  | _ => false
  end.

Section Sessions.
Context `{Imaging} `{Torch}.

(** What holds of the worker at index [i] in a session with classifier [c]
    and selected path [p]. *)
Definition thread_ok (c : option ResNet50Classifier) (p : option string)
    (i : nat) (t : thread) : Prop :=
  uncaught (th_pc t) = false /\
  (i = 0 -> classify_pc (th_pc t) = false) /\
  (i <> 0 -> load_pc (th_pc t) = false) /\
  (classify_pc (th_pc t) = true -> is_Some c /\ is_Some p) /\
  (before_create (th_pc t) = true -> c = None).

(** The invariant of a session: the classifier, when set, is the constructed
    one; the selected path is not empty; worker 0 is the load worker and the
    only one; classification workers run with classifier and path set. *)
Definition session_ok (a : App) : Prop :=
  (classifier a = None \/
   exists w, resnet50 = Ok w /\ classifier a = Some (loaded_classifier w)) /\
  current_image_path a <> Some "" /\
  is_Some (threads a !! 0) /\
  forall i t, threads a !! i = Some t ->
    thread_ok (classifier a) (current_image_path a) i t.

Lemma gui_init_ok : session_ok gui_init.
Proof.
  split; [by left|]. split; [done|]. split; [by eexists|].
  intros [|i] t; simpl; [|by rewrite lookup_nil].
  intros [= <-]. by repeat split.
Qed.

Lemma run_callback_keeps_path f (a : App) :
  current_image_path (run_callback f a) = current_image_path a.
Proof. unfold run_callback. destruct f; simpl; repeat case_match; done. Qed.

Lemma select_image_path fs file_path (a : App) :
  current_image_path (select_image fs file_path a) =
    if String.eqb file_path "" then current_image_path a else Some file_path.
Proof. unfold select_image, display_image. repeat case_match; done. Qed.

(** What [call_predict] raises is an ordinary exception. *)
Lemma call_predict_Exception fs (a : App) e :
  session_ok a -> call_predict fs a = Raise e -> is_Exception (exn_cls e) = true.
Proof.
  intros ([Hc|(w & _ & Hc)] & _) He; unfold call_predict, raise, raise_handling in He;
    rewrite Hc in He; [by simplify_eq/=|].
  destruct (current_image_path a) as [path|]; [|by simplify_eq/=].
  by rewrite (predict_Raise_ValueError _ _ _ _ _ He).
Qed.

(** A worker that moves to [p'] within its own function keeps the invariant. *)
Lemma thread_ok_move c p i t t' :
  thread_ok c p i t ->
  uncaught (th_pc t') = false ->
  (classify_pc (th_pc t') = true -> classify_pc (th_pc t) = true) ->
  (load_pc (th_pc t') = true -> load_pc (th_pc t) = true) ->
  (before_create (th_pc t') = true -> before_create (th_pc t) = true) ->
  thread_ok c p i t'.
Proof.
  intros (_ & Hfst & Hn & Hcl & Hb) Hu Hc' Hl' Hb'.
  split; [done|]. split; [|split; [|split]].
  - intros Hi. specialize (Hfst Hi).
    destruct (classify_pc (th_pc t')); [|done]. by rewrite Hc' in Hfst.
  - intros Hi. specialize (Hn Hi).
    destruct (load_pc (th_pc t')); [|done]. by rewrite Hl' in Hn.
  - intros Hcp. apply Hcl; auto.
  - intros Hbp. apply Hb; auto.
Qed.

Lemma session_ok_move (a b : App) tid t t' :
  session_ok a ->
  threads a !! tid = Some t ->
  classifier b = classifier a ->
  current_image_path b = current_image_path a ->
  threads b = <[tid := t']> (threads a) ->
  uncaught (th_pc t') = false ->
  (classify_pc (th_pc t') = true -> classify_pc (th_pc t) = true) ->
  (load_pc (th_pc t') = true -> load_pc (th_pc t) = true) ->
  (before_create (th_pc t') = true -> before_create (th_pc t) = true) ->
  session_ok b.
Proof.
  intros (Hc & Hp & Hfst & Hts) Ht Hcb Hpb Htb Hu Hc' Hl' Hb'.
  unfold session_ok. rewrite Hcb, Hpb, Htb. split; [done|]. split; [done|]. split.
  - destruct (decide (tid = 0)) as [->|Hne].
    + rewrite list_lookup_insert_eq; [by eexists|]. by eapply lookup_lt_Some.
    + by rewrite list_lookup_insert_ne.
  - intros i t1 Hi. destruct (decide (tid = i)) as [->|Hne].
    + rewrite list_lookup_insert_eq in Hi by (by eapply lookup_lt_Some).
      injection Hi as <-. eapply thread_ok_move; eauto.
    + rewrite list_lookup_insert_ne in Hi by done. by apply Hts.
Qed.

Lemma worker_step_ok fs tid (a : App) : session_ok a -> session_ok (worker_step fs tid a).
Proof.
  intros Ha. unfold worker_step. destruct (threads a !! tid) as [t|] eqn:Ht; [|done].
  pose proof Ha as (Hc & Hp & Hfst & Hts). pose proof (Hts _ _ Ht) as Hok.
  destruct (th_pc t) eqn:Hpc.
  - eapply (session_ok_move a _ tid t); eauto; simpl; rewrite ?Hpc; done.
  - destruct create_classifier as [c|exn] eqn:Hcreate.
    + apply create_classifier_Ok in Hcreate as (w & Hw & ->).
      destruct Hok as (_ & Htid & Hn & _ & _).
      assert (tid = 0) as ->.
      { destruct (decide (tid = 0)); [done|]. specialize (Hn ltac:(done)). by rewrite Hpc in Hn. }
      split; [right; by exists w|]. split; [done|]. simpl. split.
      * rewrite list_lookup_insert_eq; [by eexists|]. by eapply lookup_lt_Some.
      * intros i t1 Hi. destruct (decide (i = 0)) as [->|Hne].
        -- rewrite list_lookup_insert_eq in Hi by (by eapply lookup_lt_Some).
           injection Hi as <-. by repeat split.
        -- rewrite list_lookup_insert_ne in Hi by done.
           destruct (Hts _ _ Hi) as (Hu1 & _ & Hn1 & Hcl1 & _). specialize (Hn1 Hne).
           split; [done|]. split; [done|]. split; [done|]. split.
           ++ intros Hcp. split; [by eexists|]. by apply Hcl1.
           ++ intros Hb. destruct (th_pc t1); done.
    + unfold enter_except.
      rewrite (resnet50_Exception _ (create_classifier_Raise _ Hcreate)).
      eapply (session_ok_move a _ tid t); eauto; simpl; rewrite ?Hpc; done.
  - eapply (session_ok_move a _ tid t); eauto; simpl; rewrite ?Hpc; done.
  - eapply (session_ok_move a _ tid t); eauto; simpl; rewrite ?Hpc; done.
  - eapply (session_ok_move a _ tid t); eauto; simpl; rewrite ?Hpc; done.
  - eapply (session_ok_move a _ tid t); eauto; simpl; rewrite ?Hpc; done.
  - destruct (call_predict fs a) as [preds|exn] eqn:Hcall.
    + eapply (session_ok_move a _ tid t); eauto; simpl; rewrite ?Hpc; done.
    + unfold enter_except. rewrite (call_predict_Exception _ _ _ Ha Hcall).
      eapply (session_ok_move a _ tid t); eauto; simpl; rewrite ?Hpc; done.
  - eapply (session_ok_move a _ tid t); eauto; simpl; rewrite ?Hpc; done.
  - eapply (session_ok_move a _ tid t); eauto; simpl; rewrite ?Hpc; done.
  - eapply (session_ok_move a _ tid t); eauto; simpl; rewrite ?Hpc; done.
  - done.
  - done.
Qed.

Lemma step_ok fs act (a : App) : session_ok a -> session_ok (step fs act a).
Proof.
  intros Ha. destruct act as [tid| |file_path|]; simpl.
  - by apply worker_step_ok.
  - unfold mainloop_step. destruct (after_queue a) as [|f rest]; [done|].
    destruct (run_callback_keeps f (set_after_queue rest a)) as [Hc Ht].
    pose proof (run_callback_keeps_path f (set_after_queue rest a)) as Hp.
    unfold session_ok. rewrite Hc, Ht, Hp. exact Ha.
  - destruct (select_image_keeps fs file_path a) as [Hc Ht].
    pose proof (select_image_path fs file_path a) as Hp.
    unfold session_ok. rewrite Hc, Ht, Hp.
    destruct (String.eqb file_path "") eqn:Hempty; [exact Ha|].
    apply String.eqb_neq in Hempty.
    destruct Ha as (Hca & _ & Hfst & Hts). split; [done|]. split; [congruence|].
    split; [done|]. intros i t Hi. destruct (Hts _ _ Hi) as (Hu & Hz & Hn & Hcl & Hb).
    split; [done|]. split; [done|]. split; [done|]. split; [|done].
    intros Hcp. split; [by apply Hcl|by eexists].
  - unfold classify_image.
    destruct (truthy (current_image_path a)) eqn:Htruthy; [|exact Ha].
    destruct (current_image_path a) as [path|] eqn:Hpath; [|done].
    destruct (classifier a) as [c|] eqn:Hcl; [|exact Ha].
    destruct Ha as (Hca & Hp & [t0 Hfst] & Hts).
    unfold session_ok. simpl. rewrite Hcl, Hpath.
    split; [by rewrite <- Hcl|]. split; [by rewrite <- Hpath|]. split.
    + exists t0. by apply lookup_app_l_Some.
    + intros i t Hi. apply lookup_app_Some in Hi as [Hi|[Hlen Hi]].
      * rewrite Hcl, Hpath in Hts. by apply Hts.
      * assert (i <> 0).
        { apply lookup_lt_Some in Hfst. lia. }
        destruct (i - length (threads a)) as [|n]; [|done].
        injection Hi as <-.
        split; [done|]. split; [done|]. split; [done|]. split; [|done].
        intros _. split; by eexists.
Qed.

Lemma run_ok fs schedule (a : App) : session_ok a -> session_ok (run fs schedule a).
Proof.
  revert a. induction schedule as [|act schedule IH]; intros a Ha; [done|].
  change (run fs (act :: schedule) a) with (run fs schedule (step fs act a)).
  by apply IH, step_ok.
Qed.

End Sessions.

Section SessionClaims.
Context `{Imaging} `{Torch}.

Lemma run_app fs s1 s2 (a : App) : run fs (s1 ++ s2) a = run fs s2 (run fs s1 a).
Proof. unfold run. apply foldl_app. Qed.

(** In a session no worker thread ever ends with an uncaught exception:
    whatever the model load or a classification raises is caught by the
    worker's own [except Exception]. *)
Theorem workers_never_die_uncaught fs schedule :
  Forall (fun t => uncaught (th_pc t) = false) (threads (run fs schedule gui_init)).
Proof.
  destruct (run_ok fs schedule gui_init gui_init_ok) as (_ & _ & _ & Hts).
  apply Forall_lookup. intros i t Hi. by destruct (Hts _ _ Hi).
Qed.

(** The model load is started once: thread 0 is the load worker for the whole
    session, and every other thread is a classification worker. *)
Theorem one_load_worker fs schedule :
  let a := run fs schedule gui_init in
  (exists t0, threads a !! 0 = Some t0 /\ classify_pc (th_pc t0) = false) /\
  (forall i t, threads a !! i = Some t -> i <> 0 -> load_pc (th_pc t) = false).
Proof.
  destruct (run_ok fs schedule gui_init gui_init_ok) as (_ & _ & [t0 Ht0] & Hts).
  split.
  - exists t0. split; [done|]. destruct (Hts _ _ Ht0) as (_ & Hz & _). by apply Hz.
  - intros i t Hi Hne. destruct (Hts _ _ Hi) as (_ & _ & Hn & _). by apply Hn.
Qed.

Lemma step_keeps_classifier fs act (a : App) c :
  session_ok a -> classifier a = Some c -> classifier (step fs act a) = Some c.
Proof.
  intros Ha Hc. destruct act as [tid| |file_path|]; simpl.
  - unfold worker_step. destruct (threads a !! tid) as [t|] eqn:Ht; [|done].
    destruct Ha as (_ & _ & _ & Hts). destruct (Hts _ _ Ht) as (_ & _ & _ & _ & Hb).
    destruct (th_pc t) eqn:Hpc; try done.
    + rewrite Hb in Hc; done.
    + unfold enter_except. by repeat case_match.
  - unfold mainloop_step. destruct (after_queue a) as [|f rest]; [done|].
    by destruct (run_callback_keeps f (set_after_queue rest a)) as [-> _].
  - by destruct (select_image_keeps fs file_path a) as [-> _].
  - unfold classify_image.
    destruct (truthy (current_image_path a)); [destruct (classifier a) eqn:E|];
      simpl; congruence.
Qed.

(** Once [self.classifier] is set it is never cleared or replaced. *)
Theorem classifier_set_once fs s1 s2 c :
  classifier (run fs s1 gui_init) = Some c ->
  classifier (run fs (s1 ++ s2) gui_init) = Some c.
Proof.
  intros Hc. rewrite run_app.
  pose proof (run_ok fs s1 gui_init gui_init_ok) as Ha.
  revert Ha Hc. generalize (run fs s1 gui_init). clear s1.
  induction s2 as [|act s2 IH]; intros a Ha Hc; [done|].
  change (run fs (act :: s2) a) with (run fs s2 (step fs act a)).
  apply IH; [by apply step_ok|by apply step_keeps_classifier].
Qed.

(** When a classification worker reaches its call of [predict], the
    classifier is the constructed one and an image path is selected: the call
    is [predict] on that path with top_k = 5, never on [None]. *)
Theorem predict_called_on_selected_image fs schedule i t :
  let a := run fs schedule gui_init in
  threads a !! i = Some t -> th_pc t = ClassifyPredict ->
  exists w path,
    resnet50 = Ok w /\ classifier a = Some (loaded_classifier w) /\
    current_image_path a = Some path /\ path <> "" /\
    call_predict fs a = predict (loaded_classifier w) fs path 5.
Proof.
  intros a Hi Hpc. subst a.
  destruct (run_ok fs schedule gui_init gui_init_ok) as (Hc & Hp & _ & Hts).
  destruct (Hts _ _ Hi) as (_ & _ & _ & Hcl & _). rewrite Hpc in Hcl.
  destruct (Hcl eq_refl) as [[c Hc'] [path Hpath]].
  destruct Hc as [Hc|(w & Hw & Hc)]; [congruence|].
  exists w, path. split; [done|]. split; [done|]. split; [done|].
  split; [congruence|]. unfold call_predict. by rewrite Hc, Hpath.
Qed.

(** The session in which everything works: the model loads, the user selects
    a file and asks for its classes, [predict] returns.  The predictions are
    shown, the status says so, the button is enabled again and the progress
    bar has stopped; nothing was reported as an error. *)
Theorem classification_is_displayed fs w file_path predictions :
  resnet50 = Ok w -> file_path <> "" ->
  predict (loaded_classifier w) fs file_path 5 = Ok predictions ->
  let a := run fs [Worker 0; Worker 0; Worker 0; MainLoop;
                   SelectImage file_path; ClassifyImage;
                   Worker 1; MainLoop; Worker 1; Worker 1; MainLoop]
             gui_init in
  results_text a = results_of predictions /\
  status_label a = ("Classification complete", "green") /\
  predict_button a = NORMAL /\
  progress_running a = false /\
  th_pc <$> threads a = [Finished; Finished] /\
  after_queue a = [] /\ dialogs a = [] /\ callback_errors a = [].
Proof.
  intros Hw Hpath Hx.
  pose proof (create_classifier_loaded w Hw) as Hc.
  apply String.eqb_neq in Hpath.
  unfold run; cbn [foldl].
  next_step idtac.
  next_step ltac:(rewrite Hc; gui_unfold).
  do 2 next_step idtac.
  destruct (Image_open fs file_path) as [img|ex] eqn:Hopen.
  - next_step ltac:(rewrite Hpath, Hopen; gui_unfold).
    next_step ltac:(rewrite Hpath; gui_unfold).
    do 2 next_step idtac.
    next_step ltac:(rewrite Hx; gui_unfold).
    do 2 next_step idtac.
    repeat split; reflexivity.
  - next_step ltac:(rewrite Hpath, Hopen, (Image_open_Exception _ _ _ Hopen); gui_unfold).
    next_step ltac:(rewrite Hpath; gui_unfold).
    do 2 next_step idtac.
    next_step ltac:(rewrite Hx; gui_unfold).
    do 2 next_step idtac.
    repeat split; reflexivity.
Qed.

(** [classify_image] does not disable the button itself (the queued
    [_on_classification_start] does, when the event loop gets to it): with a
    classifier and a file selected, each of [n] requests in a row starts one
    more worker, and the button is as it was. *)
Theorem classify_requests_pile_up fs n (a : App) c file_path :
  classifier a = Some c ->
  current_image_path a = Some file_path -> file_path <> "" ->
  let b := run fs (replicate n ClassifyImage) a in
  threads b =
    (threads a ++ replicate n {| th_pc := ClassifyAfterStart; var_e := None;
                                 var_predictions := None |})%list /\
  predict_button b = predict_button a /\
  after_queue b = after_queue a /\
  classifier b = classifier a /\ current_image_path b = current_image_path a.
Proof.
  intros Hc Hp Hne. revert a Hc Hp. induction n as [|n IH]; intros a Hc Hp.
  - simpl. by rewrite app_nil_r.
  - change (run fs (replicate (S n) ClassifyImage) a)
      with (run fs (replicate n ClassifyImage) (classify_image a)).
    assert (Hstep : classify_image a = start_thread ClassifyAfterStart a).
    { unfold classify_image. rewrite Hc, Hp. simpl.
      apply String.eqb_neq in Hne. by rewrite Hne. }
    destruct (IH (classify_image a)) as (Ht & Hb & Hq & Hc' & Hp').
    { by rewrite Hstep. }
    { by rewrite Hstep. }
    cbv zeta. rewrite Ht, Hb, Hq, Hc', Hp', Hstep. simpl.
    by rewrite <- app_assoc.
Qed.

(** Selecting a file that cannot be opened still selects it and enables the
    classify button (the preview shows the error); a classification of it
    then fails in [predict], with the same cause at the end of the chain. *)
Theorem undecodable_selection_enables_classify fs file_path e (a : App) w :
  file_path <> "" -> Image_open fs file_path = Raise e ->
  let b := select_image fs file_path a in
  current_image_path b = Some file_path /\
  predict_button b = NORMAL /\
  image_label b = LabelText ("Error loading image: " +:+ exn_str e) /\
  results_text b = "" /\
  predict (loaded_classifier w) fs file_path 5 =
    Raise (PyExn ValueError
             ("Prediction failed: Cannot process image: " +:+ exn_str e)
             (Some (PyExn ValueError ("Cannot process image: " +:+ exn_str e) (Some e)))).
Proof.
  intros Hpath He. apply String.eqb_neq in Hpath.
  unfold select_image, display_image. rewrite Hpath, He, (Image_open_Exception _ _ _ He).
  cbv zeta. repeat split; try reflexivity.
  assert (Hb : predict_body (loaded_classifier w) fs file_path 5 =
               Raise (PyExn ValueError ("Cannot process image: " +:+ exn_str e) (Some e))).
  { unfold predict_body, top_predictions.
    by rewrite (preprocess_image_undecodable _ _ _ _ He). }
  by rewrite (predict_Raise _ _ _ _ _ Hb).
Qed.

End SessionClaims.

(** * src/demo.py *)

(** [repr] of a string that holds no quote, backslash or control character
    (all the class labels are such). *)
Definition repr_str (s : string) : string := "'" +:+ s +:+ "'".

(** [repr] of a list of such strings. *)
Definition repr_list (l : list string) : string :=
  "[" +:+ String.concat ", " (repr_str <$> l) +:+ "]".

(** [str(b)] *)
Definition str_bool (b : bool) : string := if b then "True" else "False".

(** [s * n] *)
Fixpoint str_mul (s : string) (n : nat) : string :=
  match n with
  | 0 => ""
  | S n' => s +:+ str_mul s n'
  end.

Section Demo.
Context `{Imaging} `{Torch}.

(** What the [try] block of [main] prints after "Loading ResNet50 model...",
    given the classifier; [None] attributes raise as in Python. *)
Definition demo_report (classifier : ResNet50Classifier) : list string * result () :=
  let out1 :=
    [ "✓ Model loaded successfully!";
      "✓ Model is ready: " +:+ str_bool (is_model_loaded classifier);
      "✓ Transform pipeline configured: " +:+
        str_bool (bool_decide (is_Some (transform classifier))) ] in
  match not_None "sized" (class_labels classifier) with
  | Raise e => (out1, Raise e)
  | Ok labels =>
      (out1 ++
       [ "✓ Class labels loaded: " +:+ pretty (length labels) +:+ " classes available";
         LF +:+ "Model Information:";
         "  - Model type: ResNet50";
         "  - Input size: 224x224 RGB";
         "  - Pre-trained: ImageNet";
         "  - Available classes (sample): " +:+ repr_list (take 5 labels) +:+ "...";
         LF +:+ "To run the GUI application, execute:";
         "  python main.py";
         LF +:+ "To run tests, execute:";
         "  pytest" ], Ok ())%list
  end.

(** [main] of demo.py: the lines printed, one per [print], and the value
    returned (an exception that is not an [Exception] would leave [main]). *)
Definition demo_main : list string * result Z :=
  let banner :=
    [ "PyTorch ResNet50 Image Classifier - Demo Script"; str_mul "=" 50;
      "Loading ResNet50 model..." ] in
  let failed out e :=
    if is_Exception (exn_cls e)
    then (out ++ ["✗ Error during demonstration: " +:+ exn_str e], Ok 1%Z)%list
    else (out, Raise e) in
  match create_classifier with
  | Raise e => failed banner e
  | Ok classifier =>
      match demo_report classifier with
      | (out, Ok _) => (banner ++ out, Ok 0%Z)%list
      | (out, Raise e) => failed (banner ++ out)%list e
      end
  end.

(** The demo never raises: it returns 0 exactly when the classifier can be
    constructed, and then reports a ready model with 30 labels and the first
    five of them; when construction raises it prints that error as its last
    line and returns 1. *)
Theorem demo_main_exit_code :
  (demo_main.2 = Ok 0%Z \/ demo_main.2 = Ok 1%Z) /\
  (demo_main.2 = Ok 0%Z <-> exists c, create_classifier = Ok c) /\
  (forall c, create_classifier = Ok c ->
     "✓ Model is ready: True" ∈ demo_main.1 /\
     "✓ Transform pipeline configured: True" ∈ demo_main.1 /\
     "✓ Class labels loaded: 30 classes available" ∈ demo_main.1 /\
     "  - Available classes (sample): ['tench', 'goldfish', 'great white shark', 'tiger shark', 'hammerhead']..."
       ∈ demo_main.1) /\
  (forall e, create_classifier = Raise e ->
     demo_main =
       ([ "PyTorch ResNet50 Image Classifier - Demo Script";
          "==================================================";
          "Loading ResNet50 model...";
          "✗ Error during demonstration: " +:+ exn_str e ], Ok 1%Z)).
Proof.
  unfold demo_main. destruct create_classifier as [c|e] eqn:Hc.
  - apply create_classifier_Ok in Hc as (w & _ & ->).
    split; [by left|]. split; [|split].
    + split; [by eexists|done].
    + intros c [= <-]. cbn. rewrite !elem_of_cons. repeat split; auto 20.
    + done.
  - pose proof (resnet50_Exception _ (create_classifier_Raise _ Hc)) as Hexc.
    rewrite Hexc. split; [by right|]. split; [|split].
    + split; [done|]. by intros [c ?].
    + done.
    + by intros e' [= <-].
Qed.

End Demo.

(** ** The extra properties on the test sessions *)

(** The solid red 100x100 picture, as decoded. *)
Definition red_picture : Image :=
  {| im_width := 100; im_height := 100;
     im_pixel := fun _ _ band =>
       Z.of_nat (Byte.to_nat (nth band [Byte.xff; Byte.x00; Byte.x00] Byte.x00)) |}.

(** top_k = 1001 on the red picture: one more than the classes. *)
Lemma predict_succeeds_iff_in_range_witness :
  ((exists preds,
      @predict solid_imaging torch_lower_first classifier_lower_first demo_fs "red.img" 1001
        = Ok preds) <-> (0 <= 1001 <= 1000)%Z) /\
  (~ (0 <= 1001 <= 1000)%Z ->
   exists cause,
     @predict solid_imaging torch_lower_first classifier_lower_first demo_fs "red.img" 1001 =
       Raise (PyExn ValueError ("Prediction failed: " +:+ exn_str cause) (Some cause)) /\
     exn_cls cause = RuntimeError).
Proof.
  apply (@predict_succeeds_iff_in_range solid_imaging torch_lower_first).
  - reflexivity.
  - exact red_valid.
Defined.

(** The three best classes of the red picture. *)
Lemma predict_takes_the_largest_witness :
  exists probs preds top_prob top_class,
    @probabilities solid_imaging torch_lower_first classifier_lower_first demo_fs "red.img"
      = Ok probs /\
    @top_predictions solid_imaging torch_lower_first classifier_lower_first demo_fs "red.img" 3
      = Ok (top_prob, top_class) /\
    @predict solid_imaging torch_lower_first classifier_lower_first demo_fs "red.img" 3
      = Ok preds /\
    (forall i entry, preds !! i = Some entry ->
       exists class_idx, top_class !! i = Some class_idx /\
         probs !! class_idx = Some entry.2) /\
    (forall j p entry, probs !! j = Some p -> j ∉ top_class -> entry ∈ preds ->
       (p <= entry.2)%Q).
Proof.
  apply (@predict_takes_the_largest solid_imaging torch_lower_first).
  - reflexivity.
  - exact red_valid.
  - lia.
Defined.

(** The red picture: 100x100 becomes 256x256, the window starts at (16, 16). *)
Lemma crop_is_a_centred_window_witness :
  exists resized,
    @Resize solid_imaging 256 red_picture = Ok resized /\
    256 <= im_width resized /\ 256 <= im_height resized /\
    let left := round_half (im_width resized - 224) in
    let top := round_half (im_height resized - 224) in
    left + 224 <= im_width resized /\
    top + 224 <= im_height resized /\
    left <= (im_width resized - 224 - left) + 1 /\
    im_width resized - 224 - left <= left + 1 /\
    top <= (im_height resized - 224 - top) + 1 /\
    im_height resized - 224 - top <= top + 1 /\
    forall x y band, x < 224 -> y < 224 ->
      im_pixel (CenterCrop 224 resized) x y band = im_pixel resized (left + x) (top + y) band.
Proof.
  apply (@crop_is_a_centred_window solid_imaging red_picture); simpl; lia.
Defined.

(** The session up to the worker's call of [predict] on the red picture. *)
Definition predicting_session : @App torch_lower_first :=
  @run solid_imaging torch_lower_first demo_fs
    [Worker 0; Worker 0; Worker 0; MainLoop; SelectImage "red.img"; ClassifyImage;
     Worker 1] gui_init.

Lemma classifier_set_once_witness :
  classifier
    (@run solid_imaging torch_lower_first demo_fs
       ([Worker 0; Worker 0] ++
        [Worker 0; MainLoop; SelectImage "red.img"; ClassifyImage; Worker 1]) gui_init)
    = Some classifier_lower_first.
Proof.
  apply (@classifier_set_once solid_imaging torch_lower_first). reflexivity.
Defined.

Lemma predict_called_on_selected_image_witness :
  exists w path,
    @resnet50 torch_lower_first = Ok w /\
    classifier predicting_session = Some (@loaded_classifier solid_imaging torch_lower_first w) /\
    current_image_path predicting_session = Some path /\ path <> "" /\
    @call_predict solid_imaging torch_lower_first demo_fs predicting_session
      = @predict solid_imaging torch_lower_first
          (@loaded_classifier solid_imaging torch_lower_first w) demo_fs path 5.
Proof.
  apply (@predict_called_on_selected_image solid_imaging torch_lower_first demo_fs
           [Worker 0; Worker 0; Worker 0; MainLoop; SelectImage "red.img"; ClassifyImage;
            Worker 1] 1
           {| th_pc := ClassifyPredict; var_e := None; var_predictions := None |});
    reflexivity.
Defined.

(** The five best classes of the red picture, on display. *)
Lemma classification_is_displayed_witness :
  let a := @run solid_imaging torch_lower_first demo_fs
             [Worker 0; Worker 0; Worker 0; MainLoop;
              SelectImage "red.img"; ClassifyImage;
              Worker 1; MainLoop; Worker 1; Worker 1; MainLoop] gui_init in
  results_text a =
    results_of [("tiger shark", 4 # 2500); ("cock", 4 # 2500); ("goldfinch", 4 # 2500);
                ("robin", 4 # 2500); ("chickadee", 4 # 2500)]%Q /\
  status_label a = ("Classification complete", "green") /\
  predict_button a = NORMAL /\
  progress_running a = false /\
  th_pc <$> threads a = [Finished; Finished] /\
  after_queue a = [] /\ dialogs a = [] /\ callback_errors a = [].
Proof.
  apply (@classification_is_displayed solid_imaging torch_lower_first demo_fs () "red.img").
  - reflexivity.
  - discriminate.
  - vm_compute. reflexivity.
Defined.

(** Two requests in a row, before the event loop runs. *)
Lemma classify_requests_pile_up_witness :
  let a := @run solid_imaging torch_lower_first demo_fs
             [Worker 0; Worker 0; Worker 0; MainLoop; SelectImage "red.img"] gui_init in
  let b := @run solid_imaging torch_lower_first demo_fs (replicate 2 ClassifyImage) a in
  threads b =
    (threads a ++ replicate 2 {| th_pc := ClassifyAfterStart; var_e := None;
                                 var_predictions := None |})%list /\
  predict_button b = predict_button a /\
  after_queue b = after_queue a /\
  classifier b = classifier a /\ current_image_path b = current_image_path a.
Proof.
  eapply (@classify_requests_pile_up solid_imaging torch_lower_first demo_fs 2 _ _
            "red.img"); [reflexivity|reflexivity|discriminate].
Defined.

(** The text file picked as the image. *)
Lemma undecodable_selection_enables_classify_witness :
  let b := @select_image solid_imaging torch_lower_first demo_fs "notes.txt" gui_init in
  current_image_path b = Some "notes.txt" /\
  predict_button b = NORMAL /\
  image_label b = LabelText "Error loading image: cannot identify image file" /\
  results_text b = "" /\
  @predict solid_imaging torch_lower_first classifier_lower_first demo_fs "notes.txt" 5 =
    Raise (PyExn ValueError
             "Prediction failed: Cannot process image: cannot identify image file"
             (Some (PyExn ValueError "Cannot process image: cannot identify image file"
                      (Some (PyExn UnidentifiedImageError "cannot identify image file" None))))).
Proof.
  apply (@undecodable_selection_enables_classify solid_imaging torch_lower_first
           demo_fs "notes.txt"
           (PyExn UnidentifiedImageError "cannot identify image file" None) gui_init ()).
  - discriminate.
  - vm_compute. reflexivity.
Defined.
